(** * QNNPACK: creation and setup of the quantized fully-connected operator

    A shallow embedding of [src/fully-connected.c]:
    [qnnp_create_fully_connected_nc_q8] and
    [qnnp_setup_fully_connected_nc_q8], together with the properties the
    specification states about them.

    Modelling conventions.
    - [size_t] is 64 bits wide (LP64) and [uint32_t] is 32 bits wide; both
      are values of [Z] with the wrap-around written out.
    - [float] is IEEE 754 binary32, evaluated in single precision with
      round-to-nearest-even (FLT_EVAL_METHOD = 0); values are [spec_float]
      and the arithmetic is the standard library's [SFmul] and [SFdiv] at
      precision 24 and maximal exponent 128.
    - [uint8_t] is [Byte.byte]; a pointer is an address in [Z], [NULL] is 0.
    - The heap is a finite map from addresses to allocated blocks; whether
      an allocation request succeeds is decided by an oracle carried in the
      machine state, one answer per request.
    - [qnnp_log_error] appends a record to a log in the machine state. *)

From Stdlib Require Import ZArith Lia List Bool String.
From Stdlib Require Import Strings.Byte.
From Stdlib Require Import Floats.SpecFloat Floats.FloatClass.
From stdpp Require Import base option gmap list.

Local Open Scope Z_scope.

(** ** Machine integers *)

(** Conversion to [uint32_t]. *)
Definition uint32 (x : Z) : Z := x mod 2 ^ 32.

(** Conversion to [size_t]. *)
Definition usize (x : Z) : Z := x mod 2 ^ 64.

(** Conversion of an integer to [uint8_t]. *)
Definition byte_of_Z (x : Z) : byte :=
  default x00 (Byte.of_N (Z.to_N (x mod 256))).

(** The four bytes of an [int32_t], least significant first. *)
Definition int32_bytes (x : Z) : list byte :=
  [byte_of_Z x; byte_of_Z (x / 2 ^ 8); byte_of_Z (x / 2 ^ 16); byte_of_Z (x / 2 ^ 24)].

(** ** Single-precision floating point *)

Definition prec : Z := 24.
Definition emax : Z := 128.

Abbreviation float := spec_float.

(** A [spec_float] that is the value of some binary32 datum. *)
Definition is_float (x : float) : bool := valid_binary prec emax x.

Definition fmul (x y : float) : float := SFmul prec emax x y.
Definition fdiv (x y : float) : float := SFdiv prec emax x y.

(** [x <= y], [x < y] and [x >= y] of C: false as soon as an operand is NaN. *)
Definition fle (x y : float) : bool := SFleb x y.
Definition flt (x y : float) : bool := SFltb x y.
Definition fge (x y : float) : bool := SFleb y x.

(** The literals [0.0f] and [1.0f]. *)
Definition f_zero : float := S754_zero false.
Definition f_one : float := S754_finite false 8388608 (-23).

(** [isnormal] of <math.h>. *)
Definition isnormal (x : float) : bool :=
  match SFclassify prec x with
  | PNormal | NNormal => true
  | _ => false
  end.

(** ** Status codes, diagnostics *)

Inductive qnnp_status : Type :=
  | qnnp_status_success
  | qnnp_status_uninitialized
  | qnnp_status_invalid_parameter
  | qnnp_status_unsupported_parameter
  | qnnp_status_out_of_memory.

Inductive log_arg : Type :=
  | LogFloat (x : float)
  | LogSize (n : Z)
  | LogSizeofOperator.

Record log_record : Type := LogError {
  log_format : string;
  log_args : list log_arg
}.

(** ** The operator structure *)

Abbreviation addr := Z (only parsing).

Definition NULL : addr := 0.

Inductive qnnp_format : Type :=
  | qnnp_format_none
  | qnnp_format_quint8.

(** The values the [flags] word takes in this file: zero, and the macro
    [QNNP_CONVOLUTION_FLAG_GEMM]. *)
Inductive qnnp_flags : Type :=
  | QNNP_FLAGS_NONE
  | QNNP_CONVOLUTION_FLAG_GEMM.

(** Modelled from the spec: the result type of
    [qnnp_compute_conv_quantization_params], which is declared in
    <qnnpack/requantization.h>.  The specification describes the fused
    requantization parameters as a record of the scale, the output zero
    point and the two output clamp bounds. *)
Record qnnp_conv_quantization_params : Type := ConvQuantizationParams {
  requantization_scale : float;
  params_output_zero_point : byte;
  params_output_min : byte;
  params_output_max : byte
}.

(** The fields of [struct qnnp_operator] this file reads or writes. *)
Record qnnp_operator : Type := Operator {
  batch_size : Z;
  input_height : Z;
  input_width : Z;
  input : addr;
  input_pixel_stride : Z;
  output_height : Z;
  output_width : Z;
  output : addr;
  output_pixel_stride : Z;
  packed_kernel : addr;
  groups : Z;
  group_input_channels : Z;
  group_output_channels : Z;
  input_zero_point : byte;
  kernel_zero_point : byte;
  conv_quantization_params : qnnp_conv_quantization_params;
  format : qnnp_format;
  flags : qnnp_flags
}.

(** What [calloc] hands out: every field zero. *)
Definition zeroed_operator : qnnp_operator :=
  {| batch_size := 0; input_height := 0; input_width := 0; input := NULL;
     input_pixel_stride := 0; output_height := 0; output_width := 0;
     output := NULL; output_pixel_stride := 0; packed_kernel := NULL;
     groups := 0; group_input_channels := 0; group_output_channels := 0;
     input_zero_point := x00; kernel_zero_point := x00;
     conv_quantization_params := ConvQuantizationParams f_zero x00 x00 x00;
     format := qnnp_format_none; flags := QNNP_FLAGS_NONE |}.

(** ** Machine state *)

Record q8conv_parameters : Type := Q8ConvParameters {
  nr : Z;
  kr : Z
}.

(** The global [qnnp_params]. *)
Record qnnp_parameters : Type := QnnpParameters {
  initialized : bool;
  q8conv : q8conv_parameters
}.

Inductive block : Type :=
  | Struct (op : qnnp_operator)
  | Bytes (data : list byte).

Record machine : Type := Machine {
  qnnp_params : qnnp_parameters;
  heap : gmap Z block;
  alloc_oracle : list bool;
  log : list log_record
}.

Definition with_heap (h : gmap Z block) (m : machine) : machine :=
  {| qnnp_params := qnnp_params m; heap := h;
     alloc_oracle := alloc_oracle m; log := log m |}.

Definition qnnp_log_error (fmt : string) (args : list log_arg) (m : machine) : machine :=
  {| qnnp_params := qnnp_params m; heap := heap m;
     alloc_oracle := alloc_oracle m; log := log m ++ [LogError fmt args] |}.

(** ** The allocator *)

Definition fresh_addr (h : gmap Z block) : addr := fresh ({[NULL]} ∪ dom h).

(** One allocation request: the oracle's next answer decides whether it is
    served; a served request installs [b] at an address that is neither
    [NULL] nor live. *)
Definition allocate (b : block) (m : machine) : addr * machine :=
  match alloc_oracle m with
  | true :: rest =>
      let p := fresh_addr (heap m) in
      (p, {| qnnp_params := qnnp_params m; heap := <[p := b]> (heap m);
             alloc_oracle := rest; log := log m |})
  | _ =>
      (NULL, {| qnnp_params := qnnp_params m; heap := heap m;
                alloc_oracle := tail (alloc_oracle m); log := log m |})
  end.

(** [calloc(1, sizeof(struct qnnp_operator))]. *)
Definition calloc_operator (m : machine) : addr * machine :=
  allocate (Struct zeroed_operator) m.

(** [malloc(size)]; the contents are indeterminate, here zero bytes. *)
Definition malloc (size : Z) (m : machine) : addr * machine :=
  allocate (Bytes (replicate (Z.to_nat size) x00)) m.

(** [free(p)]; [free(NULL)] does nothing. *)
Definition free (p : addr) (m : machine) : machine :=
  if decide (p = NULL) then m else with_heap (delete p (heap m)) m.

(** [memset(p, c, n)] on a byte block. *)
Definition memset (p : addr) (c : byte) (n : Z) (m : machine) : machine :=
  match heap m !! p with
  | Some (Bytes old) =>
      let count := Nat.min (Z.to_nat n) (length old) in
      with_heap (<[p := Bytes (replicate count c ++ drop count old)]> (heap m)) m
  | _ => m
  end.

(** [p->field = v] for the fields of a live operator.  Dereferencing an
    address that holds no live operator is undefined in C; the model then
    leaves the heap as it is. *)
Definition modify_operator (p : addr) (f : qnnp_operator → qnnp_operator)
    (m : machine) : machine :=
  match heap m !! p with
  | Some (Struct op) => with_heap (<[p := Struct (f op)]> (heap m)) m
  | _ => m
  end.

(** ** Collaborators declared outside this file *)

(** Modelled from the spec: [qnnp_compute_conv_quantization_params] of
    <qnnpack/requantization.h> is not part of this file.  Per the
    specification it produces the fused requantization parameters record
    (scale, output zero point, output clamp bounds) from its arguments. *)
Definition qnnp_compute_conv_quantization_params
    (input_zero_point kernel_zero_point : byte) (scale : float)
    (output_zero_point output_min output_max : byte)
    : qnnp_conv_quantization_params :=
  {| requantization_scale := scale;
     params_output_zero_point := output_zero_point;
     params_output_min := output_min;
     params_output_max := output_max |}.

(** Modelled from the spec: [qnnp_delete_operator] is defined in another
    file.  Per the specification it releases the packed weight buffer and
    the operator record, and destroying a null handle is a no-op. *)
Definition qnnp_delete_operator (op : addr) (m : machine) : machine :=
  if decide (op = NULL) then m
  else match heap m !! op with
       | Some (Struct o) => free op (free (packed_kernel o) m)
       | _ => m
       end.

(** Rounding [x] up to a multiple of the tile size [q], in the
    specification's words [ceil(x / q) * q]. *)
Definition round_up (x q : Z) : Z := (x + q - 1) / q * q.

(** Modelled from the spec: the layout [pack_q8gemm_w] of <qnnpack/pack.h>
    produces.  The buffer is a sequence of output tiles of [nr] rows.  A
    tile holds its weights first, depth tile after depth tile, each depth
    tile giving [kr] consecutive bytes to every row of the output tile; the
    [nr] 32-bit bias values of the tile follow its weights. *)
Definition tile_bytes (nr kr kc : Z) : Z := nr * (round_up kc kr + 4).

Definition weight_offset (nr kr kc n k : Z) : Z :=
  n / nr * tile_bytes nr kr kc + k / kr * (nr * kr) + n mod nr * kr + k mod kr.

Definition bias_offset (nr kr kc n : Z) : Z :=
  n / nr * tile_bytes nr kr kc + nr * round_up kc kr + 4 * (n mod nr).

(** The bytes the packing routine stores, as (offset, value) pairs: the
    [nc * kc] weights of the row-major matrix [k] and the [nc] bias values
    of [b]. *)
Definition weight_writes (nc kc nr kr : Z) (k : list byte) : list (nat * byte) :=
  n ← seqZ 0 nc;
  c ← seqZ 0 kc;
  [(Z.to_nat (weight_offset nr kr kc n c), default x00 (k !! Z.to_nat (n * kc + c)))].

Definition bias_writes (nc kc nr kr : Z) (b : list Z) : list (nat * byte) :=
  n ← seqZ 0 nc;
  i ← seqZ 0 4;
  [(Z.to_nat (bias_offset nr kr kc n + i),
    default x00 (int32_bytes (default 0 (b !! Z.to_nat n)) !! Z.to_nat i))].

Definition store_all (writes : list (nat * byte)) (buf : list byte) : list byte :=
  foldl (λ acc w, <[w.1 := w.2]> acc) buf writes.

(** Modelled from the spec: [pack_q8gemm_w] of <qnnpack/pack.h>, which is
    not part of this file.  It stores the weights and the bias values at
    their places of the layout above and writes nothing else, so what the
    caller put into the padding stays. *)
Definition pack_q8gemm_w (nc kc nr np kr : Z) (izp kzp : byte)
    (k : list byte) (b : list Z) (packed_w : addr) (m : machine) : machine :=
  match heap m !! packed_w with
  | Some (Bytes buf) =>
      let packed := store_all (weight_writes nc kc nr kr k ++ bias_writes nc kc nr kr b) buf in
      with_heap (<[packed_w := Bytes packed]> (heap m)) m
  | _ => m
  end.

(** ** Create *)

(** The [error:] label. *)
Definition error (status : qnnp_status) (fully_connected : addr)
    (fully_connected_out : addr) (m : machine) : qnnp_status * addr * machine :=
  (status, fully_connected_out, qnnp_delete_operator fully_connected m).

Definition set_packed_kernel (p : addr) (op : qnnp_operator) : qnnp_operator :=
  {| batch_size := batch_size op; input_height := input_height op;
     input_width := input_width op; input := input op;
     input_pixel_stride := input_pixel_stride op;
     output_height := output_height op; output_width := output_width op;
     output := output op; output_pixel_stride := output_pixel_stride op;
     packed_kernel := p;
     groups := groups op; group_input_channels := group_input_channels op;
     group_output_channels := group_output_channels op;
     input_zero_point := input_zero_point op;
     kernel_zero_point := kernel_zero_point op;
     conv_quantization_params := conv_quantization_params op;
     format := format op; flags := flags op |}.

(** The assignments of lines 113 to 126. *)
Definition set_created_fields (ic oc : Z) (izp kzp : byte)
    (params : qnnp_conv_quantization_params) (op : qnnp_operator) : qnnp_operator :=
  {| batch_size := batch_size op; input_height := input_height op;
     input_width := input_width op; input := input op;
     input_pixel_stride := input_pixel_stride op;
     output_height := output_height op; output_width := output_width op;
     output := output op; output_pixel_stride := output_pixel_stride op;
     packed_kernel := packed_kernel op;
     groups := 1; group_input_channels := ic;
     group_output_channels := oc;
     input_zero_point := izp;
     kernel_zero_point := kzp;
     conv_quantization_params := params;
     format := qnnp_format_quint8; flags := QNNP_CONVOLUTION_FLAG_GEMM |}.

(** [n_stride] and [k_stride]: [(channels + (tile - 1)) & -tile] where
    [tile] is a [uint32_t], [channels] a [size_t], and the result is stored
    in a [uint32_t]. *)
Definition stride (channels tile : Z) : Z :=
  uint32 (Z.land (usize (channels + uint32 (tile - 1))) (uint32 (- tile))).

(** The size handed to [malloc] and [memset]:
    [n_stride * (k_stride * sizeof(uint8_t) + sizeof(int32_t))] in [size_t]. *)
Definition packed_size (n_stride k_stride : Z) : Z :=
  usize (n_stride * usize (usize (k_stride * 1) + 4)).

Definition qnnp_create_fully_connected_nc_q8
    (input_channels output_channels : Z)
    (input_zero_point : byte) (input_scale : float)
    (kernel_zero_point : byte) (kernel_scale : float)
    (kernel : list byte) (bias : list Z)
    (output_zero_point : byte) (output_scale : float)
    (output_min output_max : byte)
    (fully_connected_out : addr)
    (m : machine) : qnnp_status * addr * machine :=
  let fully_connected := NULL in
  let status := qnnp_status_uninitialized in
  if negb (initialized (qnnp_params m)) then
    error status fully_connected fully_connected_out
      (qnnp_log_error
         "qnnp_create_fully_connected_nc_q8 failed because QNNPACK is not properly initialized"
         [] m)
  else
  let status := qnnp_status_invalid_parameter in
  if fle input_scale f_zero || negb (isnormal input_scale) then
    error status fully_connected fully_connected_out
      (qnnp_log_error
         "failed to create fully connected operator with %.7g input scale: scale must be finite and positive"
         [LogFloat input_scale] m)
  else
  if fle kernel_scale f_zero || negb (isnormal kernel_scale) then
    error status fully_connected fully_connected_out
      (qnnp_log_error
         "failed to create fully connected operator with %.7g kernel scale: scale must be finite and positive"
         [LogFloat kernel_scale] m)
  else
  if fle output_scale f_zero || negb (isnormal output_scale) then
    error status fully_connected fully_connected_out
      (qnnp_log_error
         "failed to create fully connected operator with %.7g output scale: scale must be finite and positive"
         [LogFloat output_scale] m)
  else
  let status := qnnp_status_unsupported_parameter in
  let requantization_scale := fdiv (fmul input_scale kernel_scale) output_scale in
  if fge requantization_scale f_one then
    error status fully_connected fully_connected_out
      (qnnp_log_error
         "failed to create fully connected operator with %.7g input scale, %.7g kernel scale, and %.7g output scale: requantization scale %.7g is greater or equal to 1.0"
         [LogFloat input_scale; LogFloat kernel_scale; LogFloat output_scale;
          LogFloat requantization_scale] m)
  else
  let status := qnnp_status_out_of_memory in
  let '(fully_connected, m) := calloc_operator m in
  if decide (fully_connected = NULL) then
    error status fully_connected fully_connected_out
      (qnnp_log_error "failed to allocate %zu bytes for qnnp_operator structure"
         [LogSizeofOperator] m)
  else
  let nr := uint32 (nr (q8conv (qnnp_params m))) in
  let kr := uint32 (kr (q8conv (qnnp_params m))) in
  let n_stride := stride output_channels nr in
  let k_stride := stride input_channels kr in
  let '(packed, m) := malloc (packed_size n_stride k_stride) m in
  let m := modify_operator fully_connected (set_packed_kernel packed) m in
  if decide (packed = NULL) then
    error status fully_connected fully_connected_out
      (qnnp_log_error "failed to allocate %zu bytes for packed kernel data"
         [LogSize (usize (usize (1 * k_stride) * n_stride))] m)
  else
  let m := memset packed kernel_zero_point (packed_size n_stride k_stride) m in
  let m := pack_q8gemm_w output_channels input_channels nr nr kr
             input_zero_point kernel_zero_point kernel bias packed m in
  let m := modify_operator fully_connected
             (set_created_fields input_channels output_channels
                input_zero_point kernel_zero_point
                (qnnp_compute_conv_quantization_params
                   input_zero_point kernel_zero_point requantization_scale
                   output_zero_point output_min output_max)) m in
  (qnnp_status_success, fully_connected, m).

(** ** Setup *)

(** The assignments of lines 155 to 164. *)
Definition set_setup_fields (rows : Z) (src : addr) (src_stride : Z)
    (dst : addr) (dst_stride : Z) (op : qnnp_operator) : qnnp_operator :=
  {| batch_size := 1; input_height := rows;
     input_width := 1; input := src;
     input_pixel_stride := src_stride;
     output_height := rows; output_width := 1;
     output := dst; output_pixel_stride := dst_stride;
     packed_kernel := packed_kernel op;
     groups := groups op; group_input_channels := group_input_channels op;
     group_output_channels := group_output_channels op;
     input_zero_point := input_zero_point op;
     kernel_zero_point := kernel_zero_point op;
     conv_quantization_params := conv_quantization_params op;
     format := format op; flags := flags op |}.

Definition qnnp_setup_fully_connected_nc_q8
    (convolution : addr) (batch_size : Z)
    (input : addr) (input_stride : Z)
    (output : addr) (output_stride : Z)
    (threadpool : addr)
    (m : machine) : qnnp_status * machine :=
  if negb (initialized (qnnp_params m)) then
    (qnnp_status_uninitialized,
     qnnp_log_error
       "qnnp_setup_fully_connected_nc_q8 failed because QNNPACK is not properly initialized"
       [] m)
  else
  if decide (batch_size = 0) then
    (qnnp_status_invalid_parameter,
     qnnp_log_error
       "failed to setup fully connected operator with batch size %zu: batch size must be non-zero"
       [LogSize batch_size] m)
  else
  (qnnp_status_success,
   modify_operator convolution
     (set_setup_fields batch_size input input_stride output output_stride) m).

(** ** Vocabulary of the specification *)

(** A scale the specification accepts: positive, finite and normal. *)
Definition valid_scale (x : float) : bool :=
  match SFclassify prec x with
  | PNormal => true
  | _ => false
  end.

Definition is_zero (x : float) : bool :=
  match SFclassify prec x with PZero | NZero => true | _ => false end.
Definition is_negative (x : float) : bool :=
  match SFclassify prec x with NInf | NNormal | NSubn => true | _ => false end.
Definition is_subnormal (x : float) : bool :=
  match SFclassify prec x with PSubn | NSubn => true | _ => false end.
Definition is_nan (x : float) : bool :=
  match SFclassify prec x with NaN => true | _ => false end.
Definition is_infinite (x : float) : bool :=
  match SFclassify prec x with PInf | NInf => true | _ => false end.

(** A scale the specification rejects: zero, negative, subnormal, NaN or
    infinite. *)
Definition invalid_scale (x : float) : bool :=
  is_zero x || is_negative x || is_subnormal x || is_nan x || is_infinite x.

(** The test the code applies to each scale. *)
Definition scale_check_fails (x : float) : bool :=
  fle x f_zero || negb (isnormal x).

(** The fused requantization scale, in single precision. *)
Definition fused_scale (input_scale kernel_scale output_scale : float) : float :=
  fdiv (fmul input_scale kernel_scale) output_scale.

(** A float that is neither NaN nor carries a minus sign. *)
Definition unsigned_float (x : float) : bool :=
  match x with
  | S754_zero s | S754_infinity s | S754_finite s _ _ => negb s
  | S754_nan => false
  end.

Inductive scale_name : Type := InputScale | KernelScale | OutputScale.

(** The scale the validation blames: the first rejected one, in the order
    input, kernel, output. *)
Definition first_invalid_scale (input_scale kernel_scale output_scale : float)
    : option (scale_name * float) :=
  if invalid_scale input_scale then Some (InputScale, input_scale)
  else if invalid_scale kernel_scale then Some (KernelScale, kernel_scale)
  else if invalid_scale output_scale then Some (OutputScale, output_scale)
  else None.

(** The diagnostic that names a scale. *)
Definition scale_diagnostic (blamed : scale_name * float) : log_record :=
  LogError
    match blamed.1 with
    | InputScale =>
        "failed to create fully connected operator with %.7g input scale: scale must be finite and positive"
    | KernelScale =>
        "failed to create fully connected operator with %.7g kernel scale: scale must be finite and positive"
    | OutputScale =>
        "failed to create fully connected operator with %.7g output scale: scale must be finite and positive"
    end
    [LogFloat blamed.2].

(** The first check of Create a call violates, in the order of the
    specification: readiness of the global context, the three scales, the
    fused scale, the two allocations. *)
Definition first_violation (m : machine)
    (input_scale kernel_scale output_scale : float) : option qnnp_status :=
  if negb (initialized (qnnp_params m)) then Some qnnp_status_uninitialized
  else if invalid_scale input_scale || invalid_scale kernel_scale
          || invalid_scale output_scale
  then Some qnnp_status_invalid_parameter
  else if fge (fused_scale input_scale kernel_scale output_scale) f_one
  then Some qnnp_status_unsupported_parameter
  else match alloc_oracle m with
       | true :: true :: _ => None
       | _ => Some qnnp_status_out_of_memory
       end.

(** The tile width and the tile depth Create reads from the global
    context, as the [uint32_t] values it holds them in. *)
Definition tile_width (m : machine) : Z := uint32 (nr (q8conv (qnnp_params m))).
Definition tile_depth (m : machine) : Z := uint32 (kr (q8conv (qnnp_params m))).

Definition power_of_two (x : Z) : bool := x =? 2 ^ Z.log2 x.

(** Tile sizes and channel counts for which the strides are the rounded-up
    channel counts: the tiles are powers of two, the sums the code forms
    fit in 32 bits and the byte count fits in [size_t]. *)
Definition tile_geometry_ok (nr kr output_channels input_channels : Z) : bool :=
  power_of_two nr && power_of_two kr
  && (0 <=? output_channels) && (0 <=? input_channels)
  && (output_channels + nr - 1 <? 2 ^ 32) && (input_channels + kr - 1 <? 2 ^ 32)
  && (round_up output_channels nr * (round_up input_channels kr + 4) <? 2 ^ 64).

(** The operator Create leaves behind, with its packed buffer at [packed]. *)
Definition created_operator (packed : addr) (input_channels output_channels : Z)
    (input_zero_point kernel_zero_point : byte) (scale : float)
    (output_zero_point output_min output_max : byte) : qnnp_operator :=
  set_created_fields input_channels output_channels
    input_zero_point kernel_zero_point
    (qnnp_compute_conv_quantization_params input_zero_point kernel_zero_point
       scale output_zero_point output_min output_max)
    (set_packed_kernel packed zeroed_operator).

(** The contents of the packed buffer Create leaves behind. *)
Definition packed_contents (nr kr output_channels input_channels : Z)
    (kernel_zero_point : byte) (kernel : list byte) (bias : list Z) : list byte :=
  store_all
    (weight_writes output_channels input_channels nr kr kernel
     ++ bias_writes output_channels input_channels nr kr bias)
    (replicate
       (Z.to_nat (packed_size (stride output_channels nr) (stride input_channels kr)))
       kernel_zero_point).

(** ** Sample data *)

Definition ready_machine (nr kr : Z) (oracle : list bool) : machine :=
  {| qnnp_params := QnnpParameters true (Q8ConvParameters nr kr);
     heap := ∅; alloc_oracle := oracle; log := [] |}.

Definition unready_machine : machine :=
  {| qnnp_params := QnnpParameters false (Q8ConvParameters 4 8);
     heap := ∅; alloc_oracle := [true; true]; log := [] |}.

(** 0.5f, 2^-100 and -1.0f. *)
Definition f_half : float := S754_finite false 8388608 (-24).
Definition f_tiny : float := S754_finite false 8388608 (-123).
Definition f_minus_one : float := S754_finite true 8388608 (-23).

Definition sample_kernel : list byte :=
  [x01; x02; x03; x04; x05; x06; x07; x08; x09; x0a; x0b; x0c; x0d; x0e; x0f].

Definition sample_bias : list Z := [10; 20; 30; 40; 50].

Definition sample_operator : qnnp_operator :=
  created_operator 2 3 5 x00 x80 f_half x00 x00 xff.

Definition sample_heap : gmap Z block :=
  <[1 := Struct sample_operator]> (<[2 := Bytes [x80; x80; x80; x80]]> ∅).

Definition bound_machine : machine :=
  {| qnnp_params := QnnpParameters true (Q8ConvParameters 4 8);
     heap := sample_heap; alloc_oracle := []; log := [] |}.

(** ** Sequences of Setup calls *)

(** The arguments of one call of Setup on a given operator. *)
Record setup_call : Type := SetupCall {
  call_batch_size : Z;
  call_input : addr;
  call_input_stride : Z;
  call_output : addr;
  call_output_stride : Z;
  call_threadpool : addr
}.

Definition run_setup (p : addr) (c : setup_call) (m : machine) : qnnp_status * machine :=
  qnnp_setup_fully_connected_nc_q8 p (call_batch_size c)
    (call_input c) (call_input_stride c)
    (call_output c) (call_output_stride c) (call_threadpool c) m.

(** A caller that sets the same operator up again and again, whatever each
    call returns. *)
Definition run_setups (p : addr) (calls : list setup_call) (m : machine) : machine :=
  foldl (λ acc c, (run_setup p c acc).2) m calls.

(** Two operators that agree on every field Setup does not assign. *)
Definition same_persistent (a b : qnnp_operator) : Prop :=
  packed_kernel a = packed_kernel b ∧
  groups a = groups b ∧
  group_input_channels a = group_input_channels b ∧
  group_output_channels a = group_output_channels b ∧
  input_zero_point a = input_zero_point b ∧
  kernel_zero_point a = kernel_zero_point b ∧
  conv_quantization_params a = conv_quantization_params b ∧
  format a = format b ∧
  flags a = flags b.

(** What is left of the allocator's answers after Create: nothing is
    asked before the checks have passed, the packed buffer is asked for
    only when the operator structure was served. *)
Definition oracle_after_create (m : machine) (status : qnnp_status) : list bool :=
  match status with
  | qnnp_status_success => tail (tail (alloc_oracle m))
  | qnnp_status_out_of_memory =>
      match alloc_oracle m with
      | true :: rest => tail rest
      | answers => tail answers
      end
  | _ => alloc_oracle m
  end.

(** 2^100. *)
Definition f_huge : float := S754_finite false 8388608 77.

(** * Properties *)

(** ** Scales *)

Lemma scale_check_fails_valid (x : float) :
  scale_check_fails x = negb (valid_scale x).
Proof.
  unfold scale_check_fails, valid_scale, isnormal, fle, f_zero.
  destruct x as [s | s | | s m e]; try (destruct s; reflexivity); try reflexivity.
  unfold SFleb, SFcompare, SFclassify.
  destruct s; destruct (Z.pos (digits2_pos m) =? prec); reflexivity.
Qed.

Lemma invalid_scale_valid (x : float) :
  invalid_scale x = negb (valid_scale x).
Proof.
  unfold invalid_scale, valid_scale, is_zero, is_negative, is_subnormal,
    is_nan, is_infinite.
  destruct (SFclassify prec x); reflexivity.
Qed.

Lemma scale_check_fails_invalid (x : float) :
  scale_check_fails x = invalid_scale x.
Proof. rewrite scale_check_fails_valid, invalid_scale_valid; reflexivity. Qed.

Lemma valid_scale_finite (x : float) :
  valid_scale x = true → ∃ m e, x = S754_finite false m e.
Proof.
  unfold valid_scale.
  destruct x as [s | s | | s m e]; unfold SFclassify;
    try (destruct s; discriminate); try discriminate.
  destruct s; [destruct (Z.pos (digits2_pos m) =? prec); discriminate |].
  intros _; eauto.
Qed.

(** Below one excludes at-least-one, and conversely for a float that is
    not NaN. *)
Lemma compare_one_swap (m : positive) (e : Z) :
  SFcompare f_one (S754_finite false m e) =
  option_map CompOpp (SFcompare (S754_finite false m e) f_one).
Proof.
  unfold f_one, SFcompare, option_map. f_equal.
  rewrite (Z.compare_antisym e (-23)).
  change (Pos.compare_cont Eq 8388608 m)
    with (Pos.compare_cont (CompOpp Eq) 8388608 m).
  rewrite <- (Pos.compare_cont_antisym m 8388608 Eq).
  destruct (e ?= -23); reflexivity.
Qed.

Lemma flt_one_not_fge (x : float) : flt x f_one = true → fge x f_one = false.
Proof.
  unfold flt, fge, SFltb, SFleb.
  destruct x as [s | s | | s m e].
  - reflexivity.
  - destruct s; [reflexivity | discriminate].
  - reflexivity.
  - destruct s; [reflexivity |].
    rewrite compare_one_swap.
    destruct (SFcompare (S754_finite false m e) f_one) as [[] |];
      cbn [option_map CompOpp]; congruence.
Qed.

Lemma not_fge_one_flt (x : float) :
  unsigned_float x = true → fge x f_one = false → flt x f_one = true.
Proof.
  unfold flt, fge, SFltb, SFleb.
  destruct x as [s | s | | s m e].
  - reflexivity.
  - destruct s; discriminate.
  - discriminate.
  - destruct s; [discriminate |]. intros _.
    rewrite compare_one_swap.
    assert (H : ∃ c, SFcompare (S754_finite false m e) f_one = Some c)
      by (unfold f_one, SFcompare; eauto).
    destruct H as [c ->]. destruct c; cbn [option_map CompOpp]; congruence.
Qed.

Lemma unsigned_float_nonneg (x : float) :
  unsigned_float x = true → fle f_zero x = true.
Proof.
  destruct x as [s | s | | s m e]; try discriminate;
    destruct s; try discriminate; reflexivity.
Qed.

(** *** Rounding keeps the sign *)

Lemma shr_1_nonneg (mrs : shr_record) : 0 ≤ shr_m mrs → 0 ≤ shr_m (shr_1 mrs).
Proof.
  destruct mrs as [m r s]; simpl.
  destruct m as [| p | p]; simpl; [lia | | lia].
  intros _; destruct p; simpl; lia.
Qed.

Lemma iter_shr_1_nonneg (p : positive) (mrs : shr_record) :
  0 ≤ shr_m mrs → 0 ≤ shr_m (SpecFloat.iter_pos shr_1 p mrs).
Proof.
  revert mrs; induction p as [p IH | p IH |]; intros mrs Hm; simpl.
  - apply IH, IH, shr_1_nonneg, Hm.
  - apply IH, IH, Hm.
  - apply shr_1_nonneg, Hm.
Qed.

Lemma shr_fexp_nonneg (m e : Z) (l : location) :
  0 ≤ m → 0 ≤ shr_m (shr_fexp prec emax m e l).1.
Proof.
  intros Hm; unfold shr_fexp, shr.
  assert (Hstart : 0 ≤ shr_m (shr_record_of_loc m l)).
  { destruct l as [| []]; simpl; exact Hm. }
  destruct (fexp prec emax (Zdigits2 m + e) - e) as [| p | p]; simpl;
    try exact Hstart.
  apply iter_shr_1_nonneg, Hstart.
Qed.

Lemma round_nearest_even_nonneg (m : Z) (l : location) :
  0 ≤ m → 0 ≤ round_nearest_even m l.
Proof.
  intros Hm; destruct l as [| []]; simpl; try lia.
  destruct (Z.even m); lia.
Qed.

Lemma binary_round_aux_unsigned (m e : Z) (l : location) :
  0 ≤ m → unsigned_float (binary_round_aux prec emax false m e l) = true.
Proof.
  intros Hm; unfold binary_round_aux.
  pose proof (shr_fexp_nonneg m e l Hm) as H1.
  destruct (shr_fexp prec emax m e l) as [mrs' e']; simpl in H1.
  pose proof (shr_fexp_nonneg
                (round_nearest_even (shr_m mrs') (loc_of_shr_record mrs')) e'
                loc_Exact (round_nearest_even_nonneg _ _ H1)) as H2.
  destruct (shr_fexp prec emax _ e' loc_Exact) as [mrs'' e'']; simpl in H2.
  destruct (shr_m mrs'') as [| p | p]; [reflexivity | | lia].
  destruct (e'' <=? emax - prec); reflexivity.
Qed.

Lemma fmul_unsigned (x y : float) :
  valid_scale x = true → valid_scale y = true →
  unsigned_float (fmul x y) = true.
Proof.
  intros Hx Hy.
  destruct (valid_scale_finite x Hx) as (mx & ex & ->).
  destruct (valid_scale_finite y Hy) as (my & ey & ->).
  unfold fmul, SFmul; simpl xorb.
  apply binary_round_aux_unsigned; lia.
Qed.

Lemma div_core_nonneg (m1 : positive) (e1 : Z) (m2 : positive) (e2 : Z) :
  0 ≤ (SFdiv_core_binary prec emax (Z.pos m1) e1 (Z.pos m2) e2).1.1.
Proof.
  unfold SFdiv_core_binary.
  set (s := _ - _ - _).
  set (m' := match s with Z0 => Z.pos m1 | Z.pos _ => Z.shiftl (Z.pos m1) s | Z.neg _ => 0 end).
  assert (Hm' : 0 ≤ m').
  { subst m'; destruct s; try lia. apply Z.shiftl_nonneg; lia. }
  pose proof (Z_div_mod m' (Z.pos m2) ltac:(lia)) as Hdiv.
  destruct (Z.div_eucl m' (Z.pos m2)) as [q r]; simpl.
  nia.
Qed.

Lemma fdiv_unsigned (x y : float) :
  unsigned_float x = true → valid_scale y = true →
  unsigned_float (fdiv x y) = true.
Proof.
  intros Hx Hy.
  destruct (valid_scale_finite y Hy) as (my & ey & ->).
  unfold fdiv, SFdiv.
  destruct x as [s | s | | s m e]; simpl in Hx; try discriminate;
    destruct s; try discriminate; try reflexivity.
  pose proof (div_core_nonneg m e my ey) as Hq.
  destruct (SFdiv_core_binary prec emax (Z.pos m) e (Z.pos my) ey) as [[mz ez] lz].
  simpl in Hq; simpl xorb.
  apply binary_round_aux_unsigned, Hq.
Qed.

Lemma fused_scale_unsigned (i k o : float) :
  valid_scale i = true → valid_scale k = true → valid_scale o = true →
  unsigned_float (fused_scale i k o) = true.
Proof.
  intros Hi Hk Ho; unfold fused_scale.
  apply fdiv_unsigned; [apply fmul_unsigned |]; assumption.
Qed.

(** ** The allocator and the heap *)

Lemma fresh_addr_not_null (h : gmap Z block) : fresh_addr h ≠ NULL.
Proof.
  unfold fresh_addr; intros Heq.
  pose proof (is_fresh ({[NULL]} ∪ dom h)) as Hfresh.
  rewrite Heq in Hfresh; set_solver.
Qed.

Lemma fresh_addr_unused (h : gmap Z block) : h !! fresh_addr h = None.
Proof.
  unfold fresh_addr.
  pose proof (is_fresh ({[NULL]} ∪ dom h)) as Hfresh.
  apply not_elem_of_dom; set_solver.
Qed.

Lemma allocate_served (b : block) (m : machine) (rest : list bool) :
  alloc_oracle m = true :: rest →
  allocate b m =
    (fresh_addr (heap m),
     {| qnnp_params := qnnp_params m; heap := <[fresh_addr (heap m) := b]> (heap m);
        alloc_oracle := rest; log := log m |}).
Proof. intros H; unfold allocate; rewrite H; reflexivity. Qed.

Lemma allocate_refused (b : block) (m : machine) :
  head (alloc_oracle m) ≠ Some true →
  allocate b m =
    (NULL,
     {| qnnp_params := qnnp_params m; heap := heap m;
        alloc_oracle := tail (alloc_oracle m); log := log m |}).
Proof.
  unfold allocate; destruct (alloc_oracle m) as [| [] rest]; simpl;
    [reflexivity | congruence | reflexivity].
Qed.

Lemma modify_operator_live (p : addr) (f : qnnp_operator → qnnp_operator)
    (m : machine) (op : qnnp_operator) :
  heap m !! p = Some (Struct op) →
  modify_operator p f m = with_heap (<[p := Struct (f op)]> (heap m)) m.
Proof. intros H; unfold modify_operator; rewrite H; reflexivity. Qed.

Lemma memset_whole (p : addr) (c : byte) (n : Z) (m : machine) (old : list byte) :
  heap m !! p = Some (Bytes old) → length old = Z.to_nat n →
  memset p c n m = with_heap (<[p := Bytes (replicate (Z.to_nat n) c)]> (heap m)) m.
Proof.
  intros H Hlen; unfold memset; rewrite H, Hlen, Nat.min_id.
  rewrite drop_ge by lia. rewrite app_nil_r. reflexivity.
Qed.

Lemma pack_q8gemm_w_live (nc kc tile np depth : Z) (izp kzp : byte)
    (k : list byte) (b : list Z) (p : addr) (m : machine) (buf : list byte) :
  heap m !! p = Some (Bytes buf) →
  pack_q8gemm_w nc kc tile np depth izp kzp k b p m =
    with_heap
      (<[p := Bytes (store_all (weight_writes nc kc tile depth k
                                ++ bias_writes nc kc tile depth b) buf)]> (heap m)) m.
Proof. intros H; unfold pack_q8gemm_w; rewrite H; reflexivity. Qed.

Lemma delete_null (m : machine) : qnnp_delete_operator NULL m = m.
Proof. reflexivity. Qed.

Lemma delete_unpacked (p : addr) (m : machine) (op : qnnp_operator) :
  p ≠ NULL → heap m !! p = Some (Struct op) → packed_kernel op = NULL →
  qnnp_delete_operator p m = with_heap (delete p (heap m)) m.
Proof.
  intros Hp Hop Hpk; unfold qnnp_delete_operator.
  destruct (decide (p = NULL)) as [| _]; [contradiction |].
  rewrite Hop, Hpk; unfold free.
  destruct (decide (p = NULL)) as [| _]; [contradiction |].
  reflexivity.
Qed.

(** ** Create *)

Section Create.

Variables (input_channels output_channels : Z).
Variables (input_zero_point : byte) (input_scale : float).
Variables (kernel_zero_point : byte) (kernel_scale : float).
Variables (kernel : list byte) (bias : list Z).
Variables (output_zero_point : byte) (output_scale : float).
Variables (output_min output_max : byte).
Variables (fully_connected_out : addr) (m : machine).

Local Abbreviation create :=
  (qnnp_create_fully_connected_nc_q8 input_channels output_channels
     input_zero_point input_scale kernel_zero_point kernel_scale kernel bias
     output_zero_point output_scale output_min output_max fully_connected_out m).

Ltac enter_create :=
  unfold qnnp_create_fully_connected_nc_q8;
  change (fle input_scale f_zero || negb (isnormal input_scale))
    with (scale_check_fails input_scale);
  change (fle kernel_scale f_zero || negb (isnormal kernel_scale))
    with (scale_check_fails kernel_scale);
  change (fle output_scale f_zero || negb (isnormal output_scale))
    with (scale_check_fails output_scale);
  change (fdiv (fmul input_scale kernel_scale) output_scale)
    with (fused_scale input_scale kernel_scale output_scale);
  rewrite !scale_check_fails_invalid.

(** A failed check leaves through the [error:] label with nothing
    allocated: the status is the one set before the check, the caller's
    handle and the heap are as they were, one diagnostic is logged. *)
Lemma create_fails (e : qnnp_status) :
  first_violation m input_scale kernel_scale output_scale = Some e →
  ∃ m' r, create = (e, fully_connected_out, m') ∧ heap m' = heap m ∧
          qnnp_params m' = qnnp_params m ∧ log m' = log m ++ [r].
Proof.
  unfold first_violation; enter_create; unfold error.
  destruct (initialized (qnnp_params m)); cbn [negb];
    [| intros [= <-]; rewrite delete_null; eauto 10].
  destruct (invalid_scale input_scale); cbn [orb];
    [intros [= <-]; rewrite delete_null; eauto 10 |].
  destruct (invalid_scale kernel_scale); cbn [orb];
    [intros [= <-]; rewrite delete_null; eauto 10 |].
  destruct (invalid_scale output_scale); cbn [orb];
    [intros [= <-]; rewrite delete_null; eauto 10 |].
  destruct (fge _ f_one);
    [intros [= <-]; rewrite delete_null; eauto 10 |].
  unfold calloc_operator, malloc.
  destruct (alloc_oracle m) as [| [] rest] eqn:Horacle.
  - intros [= <-]. rewrite allocate_refused by (rewrite Horacle; discriminate).
    cbv beta iota zeta. rewrite decide_True by reflexivity.
    rewrite delete_null. eauto 10.
  - rewrite (allocate_served _ _ rest Horacle). cbv beta iota zeta.
    rewrite decide_False by apply fresh_addr_not_null.
    set (p := fresh_addr (heap m)).
    destruct rest as [| [] rest']; [| discriminate |];
      intros [= <-];
      (rewrite allocate_refused by (cbn; discriminate));
      cbv beta iota zeta;
      (rewrite (modify_operator_live p _ _ zeroed_operator)
         by (cbn; apply lookup_insert_eq));
      (rewrite decide_True by reflexivity);
      (erewrite (delete_unpacked p);
         [| apply fresh_addr_not_null | cbn; apply lookup_insert_eq | reflexivity]);
      do 2 eexists; (split; [reflexivity |]); cbn;
      (split; [| eauto]);
      rewrite insert_insert_eq;
      apply delete_insert_id, fresh_addr_unused.
  - intros [= <-]. rewrite allocate_refused by (rewrite Horacle; discriminate).
    cbv beta iota zeta. rewrite decide_True by reflexivity.
    rewrite delete_null. eauto 10.
Qed.

Lemma first_violation_not_success :
  first_violation m input_scale kernel_scale output_scale ≠ Some qnnp_status_success.
Proof.
  unfold first_violation.
  repeat match goal with
         | |- context [if ?c then _ else _] => destruct c; try discriminate
         end.
  destruct (alloc_oracle m) as [| [] [| [] ?]]; discriminate.
Qed.

(** With every check passed Create returns the operator it allocated
    first; the packed buffer is the block allocated second. *)
Lemma create_succeeds :
  first_violation m input_scale kernel_scale output_scale = None →
  let p := fresh_addr (heap m) in
  let q := fresh_addr (<[p := Struct zeroed_operator]> (heap m)) in
  ∃ m', create = (qnnp_status_success, p, m') ∧
        heap m' =
          <[p := Struct (created_operator q input_channels output_channels
                           input_zero_point kernel_zero_point
                           (fused_scale input_scale kernel_scale output_scale)
                           output_zero_point output_min output_max)]>
            (<[q := Bytes (packed_contents (tile_width m) (tile_depth m)
                             output_channels input_channels
                             kernel_zero_point kernel bias)]> (heap m)) ∧
        p ≠ q ∧ heap m !! p = None ∧ heap m !! q = None ∧
        qnnp_params m' = qnnp_params m ∧ log m' = log m.
Proof.
  unfold first_violation; enter_create.
  destruct (initialized (qnnp_params m)); cbn [negb]; [| discriminate].
  destruct (invalid_scale input_scale); cbn [orb]; [discriminate |].
  destruct (invalid_scale kernel_scale); cbn [orb]; [discriminate |].
  destruct (invalid_scale output_scale); cbn [orb]; [discriminate |].
  destruct (fge _ f_one); [discriminate |].
  destruct (alloc_oracle m) as [| [] [| [] rest]] eqn:Horacle; try discriminate.
  intros _.
  set (p := fresh_addr (heap m)).
  set (q := fresh_addr (<[p := Struct zeroed_operator]> (heap m))).
  assert (Hp : heap m !! p = None) by apply fresh_addr_unused.
  assert (Hq : <[p := Struct zeroed_operator]> (heap m) !! q = None)
    by apply fresh_addr_unused.
  assert (Hpq : p ≠ q).
  { intros Heq. rewrite <- Heq, lookup_insert_eq in Hq. discriminate. }
  assert (Hq' : heap m !! q = None).
  { rewrite lookup_insert_ne in Hq by exact Hpq. exact Hq. }
  unfold calloc_operator, malloc.
  rewrite (allocate_served _ _ _ Horacle). cbv beta iota zeta. fold p.
  rewrite decide_False by apply fresh_addr_not_null.
  rewrite (allocate_served _ _ rest) by reflexivity.
  cbv beta iota zeta. cbn [heap qnnp_params q8conv log]. fold q.
  rewrite decide_False by apply fresh_addr_not_null.
  rewrite (modify_operator_live p (set_packed_kernel q) _ zeroed_operator)
    by (cbn [heap]; rewrite lookup_insert_ne by congruence; apply lookup_insert_eq).
  erewrite memset_whole;
    [| cbn [heap with_heap]; rewrite lookup_insert_ne by congruence;
       apply lookup_insert_eq
     | apply length_replicate ].
  erewrite pack_q8gemm_w_live by (cbn [heap with_heap]; apply lookup_insert_eq).
  erewrite modify_operator_live
    by (cbn [heap with_heap]; rewrite !(lookup_insert_ne _ q p) by congruence;
        apply lookup_insert_eq).
  eexists; split; [reflexivity |].
  cbn [heap with_heap qnnp_params log].
  repeat split; try assumption.
  unfold tile_width, tile_depth, packed_contents.
  unfold created_operator.
  apply map_eq; intros i.
  rewrite !lookup_insert.
  repeat case_decide; congruence.
Qed.

(** Success means that no check was violated. *)
Lemma create_success_inv (p : addr) (m' : machine) :
  create = (qnnp_status_success, p, m') →
  first_violation m input_scale kernel_scale output_scale = None.
Proof.
  intros Hcreate.
  destruct (first_violation m input_scale kernel_scale output_scale) as [e |] eqn:Hv;
    [| reflexivity].
  destruct (create_fails e Hv) as (m'' & r & Heq & _).
  rewrite Heq in Hcreate. injection Hcreate as -> _ _.
  destruct (first_violation_not_success Hv).
Qed.

End Create.

Lemma first_violation_none (m : machine) (i k o : float) (rest : list bool) :
  initialized (qnnp_params m) = true →
  valid_scale i = true → valid_scale k = true → valid_scale o = true →
  flt (fused_scale i k o) f_one = true →
  alloc_oracle m = true :: true :: rest →
  first_violation m i k o = None.
Proof.
  intros Hinit Hi Hk Ho Hlt Horacle. unfold first_violation.
  rewrite Hinit, !invalid_scale_valid, Hi, Hk, Ho, (flt_one_not_fge _ Hlt), Horacle.
  reflexivity.
Qed.

Lemma first_violation_none_inv (m : machine) (i k o : float) :
  first_violation m i k o = None →
  initialized (qnnp_params m) = true ∧
  valid_scale i = true ∧ valid_scale k = true ∧ valid_scale o = true ∧
  fge (fused_scale i k o) f_one = false ∧
  ∃ rest, alloc_oracle m = true :: true :: rest.
Proof.
  unfold first_violation. rewrite !invalid_scale_valid.
  destruct (initialized (qnnp_params m)); [| discriminate].
  destruct (valid_scale i); [| discriminate].
  destruct (valid_scale k); [| discriminate].
  destruct (valid_scale o); [| discriminate].
  destruct (fge _ f_one); [discriminate |].
  destruct (alloc_oracle m) as [| [] [| [] rest]]; try discriminate.
  cbn; eauto 10.
Qed.

(** C1: with the global context initialized, the three scales positive,
    finite and normal, their fused scale below 1.0 and both allocations
    served, Create returns success and the operator it returns stores, as
    its requantization scale, [input_scale * kernel_scale / output_scale]
    computed in single precision. *)
Theorem create_stores_fused_scale
    (input_channels output_channels : Z)
    (izp : byte) (input_scale : float) (kzp : byte) (kernel_scale : float)
    (kernel : list byte) (bias : list Z)
    (ozp : byte) (output_scale : float) (output_min output_max : byte)
    (fully_connected_out : addr) (m : machine) (rest : list bool) :
  initialized (qnnp_params m) = true →
  valid_scale input_scale = true →
  valid_scale kernel_scale = true →
  valid_scale output_scale = true →
  flt (fused_scale input_scale kernel_scale output_scale) f_one = true →
  alloc_oracle m = true :: true :: rest →
  ∃ p m' op,
    qnnp_create_fully_connected_nc_q8 input_channels output_channels
      izp input_scale kzp kernel_scale kernel bias ozp output_scale
      output_min output_max fully_connected_out m
    = (qnnp_status_success, p, m') ∧
    heap m' !! p = Some (Struct op) ∧
    requantization_scale (conv_quantization_params op)
    = fdiv (fmul input_scale kernel_scale) output_scale.
Proof.
  intros Hinit Hi Hk Ho Hlt Horacle.
  pose proof (first_violation_none m _ _ _ rest Hinit Hi Hk Ho Hlt Horacle) as Hv.
  destruct (create_succeeds input_channels output_channels izp input_scale kzp
              kernel_scale kernel bias ozp output_scale output_min output_max
              fully_connected_out m Hv)
    as (m' & Hcreate & Hheap & _).
  eexists _, m', _. split; [exact Hcreate |].
  rewrite Hheap, lookup_insert_eq. split; reflexivity.
Qed.

Lemma create_stores_fused_scale_witness :
  ∃ p m' op,
    qnnp_create_fully_connected_nc_q8 3 5 x00 f_half x80 f_half
      sample_kernel sample_bias x00 f_one x00 xff NULL (ready_machine 4 8 [true; true])
    = (qnnp_status_success, p, m') ∧
    heap m' !! p = Some (Struct op) ∧
    requantization_scale (conv_quantization_params op)
    = fdiv (fmul f_half f_half) f_one.
Proof.
  apply (create_stores_fused_scale 3 5 x00 f_half x80 f_half sample_kernel
           sample_bias x00 f_one x00 xff NULL (ready_machine 4 8 [true; true]) []);
    reflexivity.
Defined.

(** C2, as amended: with the global context initialized, three positive,
    finite, normal scales whose fused scale is at least 1.0 make Create
    fail with [qnnp_status_unsupported_parameter]; the heap is as it was
    before the call and the caller's handle is not written. *)
Theorem create_rejects_upscaling
    (input_channels output_channels : Z)
    (izp : byte) (input_scale : float) (kzp : byte) (kernel_scale : float)
    (kernel : list byte) (bias : list Z)
    (ozp : byte) (output_scale : float) (output_min output_max : byte)
    (fully_connected_out : addr) (m : machine) :
  initialized (qnnp_params m) = true →
  valid_scale input_scale = true →
  valid_scale kernel_scale = true →
  valid_scale output_scale = true →
  fge (fdiv (fmul input_scale kernel_scale) output_scale) f_one = true →
  ∃ m',
    qnnp_create_fully_connected_nc_q8 input_channels output_channels
      izp input_scale kzp kernel_scale kernel bias ozp output_scale
      output_min output_max fully_connected_out m
    = (qnnp_status_unsupported_parameter, fully_connected_out, m') ∧
    heap m' = heap m.
Proof.
  intros Hinit Hi Hk Ho Hge.
  assert (Hv : first_violation m input_scale kernel_scale output_scale
               = Some qnnp_status_unsupported_parameter).
  { unfold first_violation, fused_scale.
    rewrite Hinit, !invalid_scale_valid, Hi, Hk, Ho, Hge. reflexivity. }
  destruct (create_fails input_channels output_channels izp input_scale kzp
              kernel_scale kernel bias ozp output_scale output_min output_max
              fully_connected_out m _ Hv)
    as (m' & r & Hcreate & Hheap & _).
  exists m'. split; assumption.
Qed.

Lemma create_rejects_upscaling_witness :
  ∃ m',
    qnnp_create_fully_connected_nc_q8 3 5 x00 f_one x80 f_one
      sample_kernel sample_bias x00 f_half x00 xff NULL (ready_machine 4 8 [true; true])
    = (qnnp_status_unsupported_parameter, NULL, m') ∧
    heap m' = heap (ready_machine 4 8 [true; true]).
Proof.
  apply (create_rejects_upscaling 3 5 x00 f_one x80 f_one sample_kernel
           sample_bias x00 f_half x00 xff NULL (ready_machine 4 8 [true; true]));
    reflexivity.
Defined.

(** C2 as stated does not hold: with scales 1.0, 1.0 and 0.5 (fused scale
    2.0) and the global context not initialized, Create returns
    [qnnp_status_uninitialized]. *)
Lemma create_upscaling_uninitialized :
  valid_scale f_one = true ∧ valid_scale f_half = true ∧
  fge (fdiv (fmul f_one f_one) f_half) f_one = true ∧
  (qnnp_create_fully_connected_nc_q8 3 5 x00 f_one x80 f_one
     sample_kernel sample_bias x00 f_half x00 xff NULL unready_machine).1.1
  = qnnp_status_uninitialized ∧
  qnnp_status_uninitialized ≠ qnnp_status_unsupported_parameter.
Proof. repeat split; try reflexivity. discriminate. Qed.

(** C3: with the global context initialized, a zero, negative, subnormal,
    NaN or infinite input, kernel or output scale makes Create fail with
    [qnnp_status_invalid_parameter], and the diagnostic it logs names the
    first such scale in the order input, kernel, output. *)
Theorem create_rejects_invalid_scale
    (input_channels output_channels : Z)
    (izp : byte) (input_scale : float) (kzp : byte) (kernel_scale : float)
    (kernel : list byte) (bias : list Z)
    (ozp : byte) (output_scale : float) (output_min output_max : byte)
    (fully_connected_out : addr) (m : machine) :
  initialized (qnnp_params m) = true →
  invalid_scale input_scale = true ∨ invalid_scale kernel_scale = true
  ∨ invalid_scale output_scale = true →
  ∃ blamed m',
    first_invalid_scale input_scale kernel_scale output_scale = Some blamed ∧
    qnnp_create_fully_connected_nc_q8 input_channels output_channels
      izp input_scale kzp kernel_scale kernel bias ozp output_scale
      output_min output_max fully_connected_out m
    = (qnnp_status_invalid_parameter, fully_connected_out, m') ∧
    log m' = log m ++ [scale_diagnostic blamed].
Proof.
  intros Hinit Hbad.
  unfold first_invalid_scale, qnnp_create_fully_connected_nc_q8.
  change (fle input_scale f_zero || negb (isnormal input_scale))
    with (scale_check_fails input_scale).
  change (fle kernel_scale f_zero || negb (isnormal kernel_scale))
    with (scale_check_fails kernel_scale).
  change (fle output_scale f_zero || negb (isnormal output_scale))
    with (scale_check_fails output_scale).
  rewrite !scale_check_fails_invalid, Hinit. cbn [negb]. unfold error.
  destruct (invalid_scale input_scale);
    [rewrite delete_null; eexists _, _; repeat split; reflexivity |].
  destruct (invalid_scale kernel_scale);
    [rewrite delete_null; eexists _, _; repeat split; reflexivity |].
  destruct (invalid_scale output_scale);
    [rewrite delete_null; eexists _, _; repeat split; reflexivity |].
  destruct Hbad as [H | [H | H]]; discriminate.
Qed.

Lemma create_rejects_invalid_scale_witness :
  ∃ blamed m',
    first_invalid_scale f_half f_minus_one f_zero = Some blamed ∧
    qnnp_create_fully_connected_nc_q8 3 5 x00 f_half x80 f_minus_one
      sample_kernel sample_bias x00 f_zero x00 xff NULL (ready_machine 4 8 [true; true])
    = (qnnp_status_invalid_parameter, NULL, m') ∧
    log m' = log (ready_machine 4 8 [true; true]) ++ [scale_diagnostic blamed].
Proof.
  apply (create_rejects_invalid_scale 3 5 x00 f_half x80 f_minus_one
           sample_kernel sample_bias x00 f_zero x00 xff NULL
           (ready_machine 4 8 [true; true]));
    [reflexivity | right; left; reflexivity].
Defined.

(** C8: a call of Create that does not return success returns the status
    of the first check it violates (context not initialized, invalid
    scale, fused scale at least 1.0, allocation refused), leaves the heap
    as it was before the call, whatever it allocated on the way having
    been released, logs one diagnostic and does not write the caller's
    handle. *)
Theorem create_failure_leaves_nothing
    (input_channels output_channels : Z)
    (izp : byte) (input_scale : float) (kzp : byte) (kernel_scale : float)
    (kernel : list byte) (bias : list Z)
    (ozp : byte) (output_scale : float) (output_min output_max : byte)
    (fully_connected_out : addr) (m : machine)
    (status : qnnp_status) (handle : addr) (m' : machine) :
  qnnp_create_fully_connected_nc_q8 input_channels output_channels
    izp input_scale kzp kernel_scale kernel bias ozp output_scale
    output_min output_max fully_connected_out m
  = (status, handle, m') →
  status ≠ qnnp_status_success →
  first_violation m input_scale kernel_scale output_scale = Some status ∧
  handle = fully_connected_out ∧
  heap m' = heap m ∧
  ∃ r, log m' = log m ++ [r].
Proof.
  intros Hcreate Hstatus.
  destruct (first_violation m input_scale kernel_scale output_scale) as [e |] eqn:Hv.
  - destruct (create_fails input_channels output_channels izp input_scale kzp
                kernel_scale kernel bias ozp output_scale output_min output_max
                fully_connected_out m e Hv)
      as (m'' & r & Heq & Hheap & _ & Hlog).
    rewrite Heq in Hcreate. injection Hcreate as <- <- <-. eauto.
  - destruct (create_succeeds input_channels output_channels izp input_scale kzp
                kernel_scale kernel bias ozp output_scale output_min output_max
                fully_connected_out m Hv)
      as (m'' & Heq & _).
    rewrite Heq in Hcreate. injection Hcreate as <- _ _. contradiction.
Qed.

Lemma create_failure_leaves_nothing_witness :
  let m := ready_machine 4 8 [true; false] in
  let r := qnnp_create_fully_connected_nc_q8 3 5 x00 f_half x80 f_half
             sample_kernel sample_bias x00 f_one x00 xff NULL m in
  first_violation m f_half f_half f_one = Some r.1.1 ∧
  r.1.2 = NULL ∧
  heap r.2 = heap m ∧
  ∃ d, log r.2 = log m ++ [d].
Proof.
  intros m r.
  apply (create_failure_leaves_nothing 3 5 x00 f_half x80 f_half
           sample_kernel sample_bias x00 f_one x00 xff NULL m r.1.1 r.1.2 r.2);
    [vm_compute; reflexivity | vm_compute; discriminate].
Defined.

(** C9, as amended: the requantization scale stored in a successfully
    created operator is [input_scale * kernel_scale / output_scale] in
    single precision and lies in the half-open interval from 0 to 1: it is
    at least 0 and strictly below 1. *)
Theorem created_scale_in_unit_interval
    (input_channels output_channels : Z)
    (izp : byte) (input_scale : float) (kzp : byte) (kernel_scale : float)
    (kernel : list byte) (bias : list Z)
    (ozp : byte) (output_scale : float) (output_min output_max : byte)
    (fully_connected_out : addr) (m : machine) (p : addr) (m' : machine) :
  qnnp_create_fully_connected_nc_q8 input_channels output_channels
    izp input_scale kzp kernel_scale kernel bias ozp output_scale
    output_min output_max fully_connected_out m
  = (qnnp_status_success, p, m') →
  ∃ op,
    heap m' !! p = Some (Struct op) ∧
    requantization_scale (conv_quantization_params op)
    = fdiv (fmul input_scale kernel_scale) output_scale ∧
    fle f_zero (requantization_scale (conv_quantization_params op)) = true ∧
    flt (requantization_scale (conv_quantization_params op)) f_one = true.
Proof.
  intros Hcreate.
  pose proof (create_success_inv _ _ _ _ _ _ _ _ _ _ _ _ _ _ _ _ Hcreate) as Hv.
  destruct (first_violation_none_inv _ _ _ _ Hv) as (_ & Hi & Hk & Ho & Hge & _).
  destruct (create_succeeds input_channels output_channels izp input_scale kzp
              kernel_scale kernel bias ozp output_scale output_min output_max
              fully_connected_out m Hv)
    as (m'' & Heq & Hheap & _).
  rewrite Heq in Hcreate. injection Hcreate as <- <-.
  eexists. rewrite Hheap, lookup_insert_eq. split; [reflexivity |].
  pose proof (fused_scale_unsigned _ _ _ Hi Hk Ho) as Hsign.
  cbn [conv_quantization_params created_operator set_created_fields
         requantization_scale qnnp_compute_conv_quantization_params].
  split; [reflexivity |]. split.
  - apply unsigned_float_nonneg, Hsign.
  - apply not_fge_one_flt; assumption.
Qed.

Lemma created_scale_in_unit_interval_witness :
  let r := qnnp_create_fully_connected_nc_q8 3 5 x00 f_half x80 f_half
             sample_kernel sample_bias x00 f_one x00 xff NULL
             (ready_machine 4 8 [true; true]) in
  ∃ op,
    heap r.2 !! r.1.2 = Some (Struct op) ∧
    requantization_scale (conv_quantization_params op)
    = fdiv (fmul f_half f_half) f_one ∧
    fle f_zero (requantization_scale (conv_quantization_params op)) = true ∧
    flt (requantization_scale (conv_quantization_params op)) f_one = true.
Proof.
  intros r.
  apply (created_scale_in_unit_interval 3 5 x00 f_half x80 f_half
           sample_kernel sample_bias x00 f_one x00 xff NULL
           (ready_machine 4 8 [true; true]) r.1.2 r.2).
  vm_compute; reflexivity.
Defined.

(** C9 as stated does not hold: the scales 2^-100, 2^-100 and 1.0 are
    positive and normal, Create succeeds on them, and the scale it stores
    is 0, which is not strictly positive. *)
Lemma created_scale_can_be_zero :
  let r := qnnp_create_fully_connected_nc_q8 3 5 x00 f_tiny x80 f_tiny
             sample_kernel sample_bias x00 f_one x00 xff NULL
             (ready_machine 4 8 [true; true]) in
  valid_scale f_tiny = true ∧ valid_scale f_one = true ∧
  is_float f_tiny = true ∧ is_float f_one = true ∧
  r.1.1 = qnnp_status_success ∧
  ∃ op,
    heap r.2 !! r.1.2 = Some (Struct op) ∧
    requantization_scale (conv_quantization_params op) = f_zero ∧
    flt f_zero (requantization_scale (conv_quantization_params op)) = false.
Proof.
  intros r. do 5 (split; [vm_compute; reflexivity |]).
  eexists. split; [vm_compute; reflexivity |].
  split; vm_compute; reflexivity.
Qed.

(** C10: Create does not look at the channel counts.  With the global
    context initialized, valid scales, a fused scale below 1.0 and both
    allocations served, a call with zero input channels or zero output
    channels returns success and the operator records the channel counts
    it was given. *)
Theorem create_accepts_zero_channels
    (input_channels output_channels : Z)
    (izp : byte) (input_scale : float) (kzp : byte) (kernel_scale : float)
    (kernel : list byte) (bias : list Z)
    (ozp : byte) (output_scale : float) (output_min output_max : byte)
    (fully_connected_out : addr) (m : machine) (rest : list bool) :
  input_channels = 0 ∨ output_channels = 0 →
  initialized (qnnp_params m) = true →
  valid_scale input_scale = true →
  valid_scale kernel_scale = true →
  valid_scale output_scale = true →
  flt (fdiv (fmul input_scale kernel_scale) output_scale) f_one = true →
  alloc_oracle m = true :: true :: rest →
  ∃ p m' op,
    qnnp_create_fully_connected_nc_q8 input_channels output_channels
      izp input_scale kzp kernel_scale kernel bias ozp output_scale
      output_min output_max fully_connected_out m
    = (qnnp_status_success, p, m') ∧
    heap m' !! p = Some (Struct op) ∧
    group_input_channels op = input_channels ∧
    group_output_channels op = output_channels.
Proof.
  intros _ Hinit Hi Hk Ho Hlt Horacle.
  pose proof (first_violation_none m _ _ _ rest Hinit Hi Hk Ho Hlt Horacle) as Hv.
  destruct (create_succeeds input_channels output_channels izp input_scale kzp
              kernel_scale kernel bias ozp output_scale output_min output_max
              fully_connected_out m Hv)
    as (m' & Hcreate & Hheap & _).
  eexists _, m', _. split; [exact Hcreate |].
  rewrite Hheap, lookup_insert_eq. repeat split; reflexivity.
Qed.

Lemma create_accepts_zero_channels_witness :
  ∃ p m' op,
    qnnp_create_fully_connected_nc_q8 0 5 x00 f_half x80 f_half
      [] sample_bias x00 f_one x00 xff NULL (ready_machine 4 8 [true; true])
    = (qnnp_status_success, p, m') ∧
    heap m' !! p = Some (Struct op) ∧
    group_input_channels op = 0 ∧
    group_output_channels op = 5.
Proof.
  apply (create_accepts_zero_channels 0 5 x00 f_half x80 f_half [] sample_bias
           x00 f_one x00 xff NULL (ready_machine 4 8 [true; true]) []);
    [left; reflexivity | reflexivity ..].
Defined.

(** ** Setup *)

Lemma setup_succeeds (p : addr) (op : qnnp_operator) (rows : Z)
    (src : addr) (src_stride : Z) (dst : addr) (dst_stride : Z)
    (threadpool : addr) (m : machine) :
  initialized (qnnp_params m) = true → rows ≠ 0 →
  heap m !! p = Some (Struct op) →
  qnnp_setup_fully_connected_nc_q8 p rows src src_stride dst dst_stride threadpool m
  = (qnnp_status_success,
     with_heap
       (<[p := Struct (set_setup_fields rows src src_stride dst dst_stride op)]> (heap m))
       m).
Proof.
  intros Hinit Hrows Hop. unfold qnnp_setup_fully_connected_nc_q8.
  rewrite Hinit. cbn [negb]. rewrite decide_False by exact Hrows.
  rewrite (modify_operator_live _ _ _ _ Hop). reflexivity.
Qed.

(** C6: with the global context initialized, Setup with a non-zero batch
    size on a live operator succeeds; in the operator it sets the batch
    size to 1, the input and output heights to the given batch size, the
    input and output widths to 1, and the input and output pointers and
    strides to the arguments, and it keeps every other field, the packed
    kernel pointer and the requantization parameters among them; every
    other block of the heap, the packed buffer among them, is untouched;
    and a second Setup leaves the state a single Setup with the second
    arguments would have left. *)
Theorem setup_overwrites_transient_fields
    (p : addr) (op : qnnp_operator) (rows : Z)
    (src : addr) (src_stride : Z) (dst : addr) (dst_stride : Z)
    (threadpool : addr) (m : machine) :
  initialized (qnnp_params m) = true →
  rows ≠ 0 →
  heap m !! p = Some (Struct op) →
  ∃ m',
    qnnp_setup_fully_connected_nc_q8 p rows src src_stride dst dst_stride threadpool m
    = (qnnp_status_success, m') ∧
    heap m' !! p
    = Some (Struct
              {| batch_size := 1;
                 input_height := rows;
                 input_width := 1;
                 input := src;
                 input_pixel_stride := src_stride;
                 output_height := rows;
                 output_width := 1;
                 output := dst;
                 output_pixel_stride := dst_stride;
                 packed_kernel := packed_kernel op;
                 groups := groups op;
                 group_input_channels := group_input_channels op;
                 group_output_channels := group_output_channels op;
                 input_zero_point := input_zero_point op;
                 kernel_zero_point := kernel_zero_point op;
                 conv_quantization_params := conv_quantization_params op;
                 format := format op;
                 flags := flags op |}) ∧
    (∀ q, q ≠ p → heap m' !! q = heap m !! q) ∧
    qnnp_params m' = qnnp_params m ∧
    alloc_oracle m' = alloc_oracle m ∧
    log m' = log m ∧
    ∀ rows2 src2 src_stride2 dst2 dst_stride2 threadpool2,
      rows2 ≠ 0 →
      qnnp_setup_fully_connected_nc_q8 p rows2 src2 src_stride2 dst2 dst_stride2
        threadpool2 m'
      = qnnp_setup_fully_connected_nc_q8 p rows2 src2 src_stride2 dst2 dst_stride2
          threadpool2 m.
Proof.
  intros Hinit Hrows Hop.
  eexists. split; [apply (setup_succeeds _ _ _ _ _ _ _ _ _ Hinit Hrows Hop) |].
  cbn [heap with_heap qnnp_params alloc_oracle log].
  split; [apply lookup_insert_eq |].
  split; [intros q Hq; apply lookup_insert_ne; congruence |].
  do 3 (split; [reflexivity |]).
  intros rows2 src2 src_stride2 dst2 dst_stride2 threadpool2 Hrows2.
  rewrite (setup_succeeds p op rows2 _ _ _ _ _ m Hinit Hrows2 Hop).
  erewrite setup_succeeds;
    [| exact Hinit | exact Hrows2 | cbn [heap with_heap]; apply lookup_insert_eq].
  unfold with_heap; cbn [heap qnnp_params alloc_oracle log].
  rewrite insert_insert_eq. reflexivity.
Qed.

Lemma setup_overwrites_transient_fields_witness :
  ∃ m',
    qnnp_setup_fully_connected_nc_q8 1 7 100 3 200 5 0 bound_machine
    = (qnnp_status_success, m') ∧
    heap m' !! 1
    = Some (Struct
              {| batch_size := 1;
                 input_height := 7;
                 input_width := 1;
                 input := 100;
                 input_pixel_stride := 3;
                 output_height := 7;
                 output_width := 1;
                 output := 200;
                 output_pixel_stride := 5;
                 packed_kernel := packed_kernel sample_operator;
                 groups := groups sample_operator;
                 group_input_channels := group_input_channels sample_operator;
                 group_output_channels := group_output_channels sample_operator;
                 input_zero_point := input_zero_point sample_operator;
                 kernel_zero_point := kernel_zero_point sample_operator;
                 conv_quantization_params := conv_quantization_params sample_operator;
                 format := format sample_operator;
                 flags := flags sample_operator |}) ∧
    (∀ q, q ≠ 1 → heap m' !! q = heap bound_machine !! q) ∧
    qnnp_params m' = qnnp_params bound_machine ∧
    alloc_oracle m' = alloc_oracle bound_machine ∧
    log m' = log bound_machine ∧
    ∀ rows2 src2 src_stride2 dst2 dst_stride2 threadpool2,
      rows2 ≠ 0 →
      qnnp_setup_fully_connected_nc_q8 1 rows2 src2 src_stride2 dst2 dst_stride2
        threadpool2 m'
      = qnnp_setup_fully_connected_nc_q8 1 rows2 src2 src_stride2 dst2 dst_stride2
          threadpool2 bound_machine.
Proof.
  apply (setup_overwrites_transient_fields 1 sample_operator 7 100 3 200 5 0
           bound_machine); [reflexivity | lia | reflexivity].
Defined.

(** C7: with the global context initialized, Setup with batch size 0
    returns [qnnp_status_invalid_parameter] and changes no block of the
    heap: the operator and its packed weights are as they were. *)
Theorem setup_rejects_zero_batch
    (p : addr) (src : addr) (src_stride : Z) (dst : addr) (dst_stride : Z)
    (threadpool : addr) (m : machine) :
  initialized (qnnp_params m) = true →
  ∃ m',
    qnnp_setup_fully_connected_nc_q8 p 0 src src_stride dst dst_stride threadpool m
    = (qnnp_status_invalid_parameter, m') ∧
    heap m' = heap m ∧
    qnnp_params m' = qnnp_params m.
Proof.
  intros Hinit. unfold qnnp_setup_fully_connected_nc_q8.
  rewrite Hinit. cbn [negb]. rewrite decide_True by reflexivity.
  eexists. repeat split.
Qed.

Lemma setup_rejects_zero_batch_witness :
  ∃ m',
    qnnp_setup_fully_connected_nc_q8 1 0 100 3 200 5 0 bound_machine
    = (qnnp_status_invalid_parameter, m') ∧
    heap m' = heap bound_machine ∧
    qnnp_params m' = qnnp_params bound_machine.
Proof.
  apply (setup_rejects_zero_batch 1 100 3 200 5 0 bound_machine); reflexivity.
Defined.

(** ** The packed weight buffer *)

(** *** Strides *)

Lemma power_of_two_spec (x : Z) :
  power_of_two x = true → ∃ a, 0 ≤ a ∧ x = 2 ^ a.
Proof.
  unfold power_of_two. intros H%Z.eqb_eq.
  exists (Z.log2 x). split; [apply Z.log2_nonneg | exact H].
Qed.

Lemma testbit_above (y i : Z) : 0 ≤ y < 2 ^ 32 → 32 ≤ i → Z.testbit y i = false.
Proof.
  intros [Hy0 Hy] Hi.
  destruct (Z.eq_dec y 0) as [-> | Hne]; [apply Z.bits_0 |].
  apply Z.bits_above_log2; [lia |].
  assert (Z.log2 y < 32) by (apply Z.log2_lt_pow2; lia). lia.
Qed.

Lemma land_tile_mask (a y : Z) :
  0 ≤ a ≤ 32 → 0 ≤ y < 2 ^ 32 → Z.land y (2 ^ 32 - 2 ^ a) = y / 2 ^ a * 2 ^ a.
Proof.
  intros Ha Hy.
  assert (Hmask : 2 ^ 32 - 2 ^ a = Z.shiftl (Z.ones (32 - a)) a).
  { rewrite Z.shiftl_mul_pow2, Z.ones_equiv by lia.
    replace (2 ^ 32) with (2 ^ (32 - a) * 2 ^ a)
      by (rewrite <- Z.pow_add_r by lia; f_equal; lia).
    lia. }
  rewrite Hmask, <- Z.shiftr_div_pow2, <- Z.shiftl_mul_pow2 by lia.
  apply Z.bits_inj'; intros i Hi.
  rewrite Z.land_spec, !Z.shiftl_spec by lia.
  destruct (Z.lt_ge_cases i a) as [Hlt | Hge].
  - rewrite !(Z.testbit_neg_r _ (i - a)) by lia. apply andb_false_r.
  - rewrite Z.shiftr_spec, Z.testbit_ones by lia.
    replace (i - a + a) with i by lia.
    destruct (Z.lt_ge_cases i 32) as [Hlt32 | Hge32].
    + replace (0 <=? i - a) with true by (symmetry; apply Z.leb_le; lia).
      replace (i - a <? 32 - a) with true by (symmetry; apply Z.ltb_lt; lia).
      apply andb_true_r.
    + rewrite (testbit_above y i) by lia. reflexivity.
Qed.

Lemma round_up_bounds (c t : Z) :
  0 < t → c ≤ round_up c t < c + t ∧ round_up c t = (c + t - 1) / t * t.
Proof.
  intros Ht. unfold round_up. split; [| reflexivity].
  pose proof (Z.div_mod (c + t - 1) t ltac:(lia)) as Hdm.
  pose proof (Z.mod_pos_bound (c + t - 1) t Ht) as Hmod.
  nia.
Qed.

Lemma round_up_multiple (c t : Z) : (t | round_up c t).
Proof. unfold round_up. apply Z.divide_factor_r. Qed.

Lemma stride_round_up (c t : Z) :
  power_of_two t = true → 0 ≤ c → c + t - 1 < 2 ^ 32 →
  stride c t = round_up c t.
Proof.
  intros Hpow Hc Hfit.
  destruct (power_of_two_spec t Hpow) as (a & Ha & ->).
  assert (Hpos : 0 < 2 ^ a) by (apply Z.pow_pos_nonneg; lia).
  assert (Ha32 : a ≤ 32).
  { destruct (Z.le_gt_cases a 32) as [| Hgt]; [assumption |].
    assert (2 ^ 33 ≤ 2 ^ a) by (apply Z.pow_le_mono_r; lia). lia. }
  unfold stride, uint32, usize, round_up.
  rewrite (Z.mod_small (2 ^ a - 1)) by lia.
  rewrite (Z.mod_small (c + (2 ^ a - 1))) by lia.
  replace (- 2 ^ a mod 2 ^ 32) with (2 ^ 32 - 2 ^ a).
  2:{ destruct (Z.eq_dec a 32) as [-> | Hne].
      - reflexivity.
      - assert (2 ^ a < 2 ^ 32) by (apply Z.pow_lt_mono_r; lia).
        apply (Z.mod_unique _ _ (-1)); lia. }
  rewrite land_tile_mask by lia.
  replace (c + 2 ^ a - 1) with (c + (2 ^ a - 1)) by lia.
  apply Z.mod_small.
  pose proof (Z.div_mod (c + (2 ^ a - 1)) (2 ^ a) ltac:(lia)) as Hdm.
  pose proof (Z.mod_pos_bound (c + (2 ^ a - 1)) (2 ^ a) Hpos) as Hmod.
  assert (0 ≤ (c + (2 ^ a - 1)) / 2 ^ a) by (apply Z.div_pos; lia).
  nia.
Qed.

Lemma tile_geometry_ok_spec (nr kr oc ic : Z) :
  tile_geometry_ok nr kr oc ic = true →
  power_of_two nr = true ∧ power_of_two kr = true ∧ 0 ≤ oc ∧ 0 ≤ ic ∧
  oc + nr - 1 < 2 ^ 32 ∧ ic + kr - 1 < 2 ^ 32 ∧
  round_up oc nr * (round_up ic kr + 4) < 2 ^ 64.
Proof.
  unfold tile_geometry_ok. rewrite !andb_true_iff.
  rewrite !Z.leb_le, !Z.ltb_lt. tauto.
Qed.

Lemma power_of_two_pos (x : Z) : power_of_two x = true → 0 < x.
Proof.
  intros H. destruct (power_of_two_spec x H) as (a & Ha & ->).
  apply Z.pow_pos_nonneg; lia.
Qed.

Lemma packed_size_round_up (nr kr oc ic : Z) :
  tile_geometry_ok nr kr oc ic = true →
  stride oc nr = round_up oc nr ∧ stride ic kr = round_up ic kr ∧
  packed_size (stride oc nr) (stride ic kr)
  = round_up oc nr * (round_up ic kr + 4).
Proof.
  intros (Hnr & Hkr & Hoc & Hic & Hn & Hk & Hfit)%tile_geometry_ok_spec.
  rewrite (stride_round_up oc nr), (stride_round_up ic kr) by assumption.
  do 2 (split; [reflexivity |]).
  pose proof (round_up_bounds oc nr (power_of_two_pos _ Hnr)) as [HN _].
  pose proof (round_up_bounds ic kr (power_of_two_pos _ Hkr)) as [HK _].
  unfold packed_size, usize. rewrite Z.mul_1_r.
  rewrite (Z.mod_small (round_up ic kr)) by lia.
  rewrite (Z.mod_small (round_up ic kr + 4)) by lia.
  apply Z.mod_small. split; [nia | lia].
Qed.

(** *** The packed layout *)

Lemma store_all_length (writes : list (nat * byte)) (buf : list byte) :
  length (store_all writes buf) = length buf.
Proof.
  unfold store_all. revert buf.
  induction writes as [| w ws IH]; intros buf; [reflexivity |].
  cbn [foldl]. rewrite IH. apply length_insert.
Qed.

Lemma store_all_lookup_other (writes : list (nat * byte)) (buf : list byte) (i : nat) :
  (∀ w, w ∈ writes → w.1 ≠ i) →
  store_all writes buf !! i = buf !! i.
Proof.
  unfold store_all. revert buf.
  induction writes as [| w ws IH]; intros buf Hother; [reflexivity |].
  cbn [foldl]. rewrite IH.
  - apply list_lookup_insert_ne, Hother. left.
  - intros w' Hw'. apply Hother. right. exact Hw'.
Qed.

Lemma offset_split (T t x t' x' : Z) :
  0 ≤ x < T → 0 ≤ x' < T → t * T + x = t' * T + x' → t = t' ∧ x = x'.
Proof. intros Hx Hx' Heq. assert (t = t') by nia. subst. lia. Qed.

Section Layout.

Variables nr kr kc : Z.
Hypothesis nr_pos : 0 < nr.
Hypothesis kr_pos : 0 < kr.

(** The part of a weight offset inside its output tile stays below the
    tile's bias values. *)
Lemma weight_in_tile (n k : Z) :
  0 ≤ k < round_up kc kr →
  0 ≤ k / kr * (nr * kr) + n mod nr * kr + k mod kr < nr * round_up kc kr.
Proof.
  intros Hk. unfold round_up in *.
  set (J := (kc + kr - 1) / kr) in *.
  pose proof (Z.mod_pos_bound n nr nr_pos) as Hr.
  pose proof (Z.mod_pos_bound k kr kr_pos) as Hc.
  assert (Hj : 0 ≤ k / kr < J).
  { split; [apply Z.div_pos; lia | apply Z.div_lt_upper_bound; lia]. }
  nia.
Qed.

Lemma weight_offset_nonneg (n k : Z) :
  0 ≤ n → 0 ≤ k < round_up kc kr → 0 ≤ weight_offset nr kr kc n k.
Proof.
  intros Hn Hk. unfold weight_offset, tile_bytes.
  pose proof (weight_in_tile n k Hk) as Hin.
  assert (0 ≤ n / nr) by (apply Z.div_pos; lia).
  assert (0 ≤ round_up kc kr) by lia.
  nia.
Qed.

Lemma weight_offset_range (n k N : Z) :
  0 ≤ n < N * nr → 0 ≤ k < round_up kc kr →
  0 ≤ weight_offset nr kr kc n k < N * nr * (round_up kc kr + 4).
Proof.
  intros Hn Hk. unfold weight_offset, tile_bytes.
  pose proof (weight_in_tile n k Hk) as Hin.
  assert (Ht : 0 ≤ n / nr < N).
  { split; [apply Z.div_pos; lia | apply Z.div_lt_upper_bound; lia]. }
  assert (0 ≤ round_up kc kr) by lia.
  nia.
Qed.

Lemma weight_offset_inj (n k n' k' : Z) :
  0 ≤ k < round_up kc kr → 0 ≤ k' < round_up kc kr →
  weight_offset nr kr kc n k = weight_offset nr kr kc n' k' →
  n = n' ∧ k = k'.
Proof.
  intros Hk Hk'. unfold weight_offset, tile_bytes. intros Heq.
  pose proof (weight_in_tile n k Hk) as Hin.
  pose proof (weight_in_tile n' k' Hk') as Hin'.
  pose proof (Z.mod_pos_bound n nr nr_pos) as Hr.
  pose proof (Z.mod_pos_bound n' nr nr_pos) as Hr'.
  pose proof (Z.mod_pos_bound k kr kr_pos) as Hc.
  pose proof (Z.mod_pos_bound k' kr kr_pos) as Hc'.
  destruct (offset_split (nr * (round_up kc kr + 4)) (n / nr)
              (k / kr * (nr * kr) + n mod nr * kr + k mod kr) (n' / nr)
              (k' / kr * (nr * kr) + n' mod nr * kr + k' mod kr))
    as [Htile Hpart]; [lia | lia | lia |].
  destruct (offset_split (nr * kr) (k / kr) (n mod nr * kr + k mod kr)
              (k' / kr) (n' mod nr * kr + k' mod kr))
    as [Hdepth Hrow]; [nia | nia | lia |].
  destruct (offset_split kr (n mod nr) (k mod kr) (n' mod nr) (k' mod kr))
    as [Hrow' Hcol]; [lia | lia | lia |].
  rewrite (Z.div_mod n nr), (Z.div_mod n' nr) by lia.
  rewrite (Z.div_mod k kr), (Z.div_mod k' kr) by lia.
  rewrite Htile, Hrow', Hdepth, Hcol. split; reflexivity.
Qed.

Lemma weight_offset_not_bias (n k n' i : Z) :
  0 ≤ k < round_up kc kr → 0 ≤ i < 4 →
  weight_offset nr kr kc n k ≠ bias_offset nr kr kc n' + i.
Proof.
  intros Hk Hi. unfold weight_offset, bias_offset, tile_bytes. intros Heq.
  pose proof (weight_in_tile n k Hk) as Hin.
  pose proof (Z.mod_pos_bound n' nr nr_pos) as Hr'.
  destruct (offset_split (nr * (round_up kc kr + 4)) (n / nr)
              (k / kr * (nr * kr) + n mod nr * kr + k mod kr) (n' / nr)
              (nr * round_up kc kr + 4 * (n' mod nr) + i))
    as [_ Hpart]; lia.
Qed.

End Layout.

Lemma pack_writes_offsets (nc kc nr kr : Z) (k : list byte) (b : list Z)
    (w : nat * byte) :
  w ∈ weight_writes nc kc nr kr k ++ bias_writes nc kc nr kr b →
  (∃ n c, 0 ≤ n < nc ∧ 0 ≤ c < kc ∧ w.1 = Z.to_nat (weight_offset nr kr kc n c))
  ∨ (∃ n i, 0 ≤ n < nc ∧ 0 ≤ i < 4 ∧ w.1 = Z.to_nat (bias_offset nr kr kc n + i)).
Proof.
  rewrite elem_of_app. unfold weight_writes, bias_writes.
  intros [Hw | Hw]; [left | right];
    apply list_elem_of_bind in Hw as (n & Hw & Hn%elem_of_seqZ);
    apply list_elem_of_bind in Hw as (c & Hw%list_elem_of_singleton & Hc%elem_of_seqZ);
    subst w; exists n, c; repeat split; lia.
Qed.

(** The packing routine writes no cell of the padded matrix that lies
    outside the true matrix. *)
Lemma padding_cell_not_written (nr kr oc ic : Z) (k : list byte) (b : list Z)
    (n c : Z) (w : nat * byte) :
  0 < nr → 0 < kr →
  0 ≤ n → 0 ≤ c < round_up ic kr → oc ≤ n ∨ ic ≤ c →
  w ∈ weight_writes oc ic nr kr k ++ bias_writes oc ic nr kr b →
  w.1 ≠ Z.to_nat (weight_offset nr kr ic n c).
Proof.
  intros Hnr Hkr Hn Hc Hpad
    [(n' & c' & Hn' & Hc' & ->) | (n' & i & Hn' & Hi & ->)]%pack_writes_offsets Heq.
  - pose proof (round_up_bounds ic kr Hkr) as [HK _].
    apply Z2Nat.inj in Heq;
      [| apply (weight_offset_nonneg nr kr ic Hnr Hkr); lia
       | apply (weight_offset_nonneg nr kr ic Hnr Hkr); lia].
    apply (weight_offset_inj nr kr ic Hnr Hkr) in Heq; lia.
  - apply Z2Nat.inj in Heq;
      [| | apply (weight_offset_nonneg nr kr ic Hnr Hkr); lia].
    + symmetry in Heq. revert Heq.
      apply (weight_offset_not_bias nr kr ic Hnr Hkr); lia.
    + unfold bias_offset, tile_bytes.
      pose proof (Z.mod_pos_bound n' nr Hnr).
      assert (0 ≤ n' / nr) by (apply Z.div_pos; lia).
      assert (0 ≤ round_up ic kr) by lia.
      nia.
Qed.

(** A padding cell that is in the buffer holds the byte the buffer was
    filled with. *)
Lemma padding_cell_kept (nr kr oc ic : Z) (kzp : byte) (k : list byte)
    (b : list Z) (n c : Z) (v : byte) :
  0 ≤ nr → 0 ≤ kr →
  0 ≤ n < round_up oc nr → 0 ≤ c < round_up ic kr → oc ≤ n ∨ ic ≤ c →
  packed_contents nr kr oc ic kzp k b !! Z.to_nat (weight_offset nr kr ic n c)
  = Some v →
  v = kzp.
Proof.
  intros Hnr Hkr Hn Hc Hpad.
  assert (Hnr' : 0 < nr).
  { destruct (Z.eq_dec nr 0) as [-> | ]; [| lia].
    unfold round_up in Hn. rewrite Z.mul_0_r in Hn. lia. }
  assert (Hkr' : 0 < kr).
  { destruct (Z.eq_dec kr 0) as [-> | ]; [| lia].
    unfold round_up in Hc. rewrite Z.mul_0_r in Hc. lia. }
  unfold packed_contents. rewrite store_all_lookup_other.
  - intros [-> _]%lookup_replicate. reflexivity.
  - intros w Hw. apply (padding_cell_not_written nr kr oc ic k b); [lia .. | exact Hw].
Qed.

(** Under a well-formed tile geometry every padding cell is in the buffer. *)
Lemma padding_cell_present (nr kr oc ic : Z) (kzp : byte) (k : list byte)
    (b : list Z) (n c : Z) :
  tile_geometry_ok nr kr oc ic = true →
  0 ≤ n < round_up oc nr → 0 ≤ c < round_up ic kr →
  is_Some (packed_contents nr kr oc ic kzp k b
             !! Z.to_nat (weight_offset nr kr ic n c)).
Proof.
  intros Hgeo Hn Hc.
  destruct (packed_size_round_up nr kr oc ic Hgeo) as (_ & _ & Hsize).
  apply tile_geometry_ok_spec in Hgeo
    as (Hnr%power_of_two_pos & Hkr%power_of_two_pos & _).
  pose proof (weight_offset_range nr kr ic Hnr Hkr n c ((oc + nr - 1) / nr) Hn Hc)
    as Hrange.
  fold (round_up oc nr) in Hrange.
  apply lookup_lt_is_Some.
  unfold packed_contents. rewrite store_all_length, length_replicate, Hsize. lia.
Qed.

(** The two blocks a successful Create leaves behind. *)
Lemma created_blocks
    (input_channels output_channels : Z)
    (izp : byte) (input_scale : float) (kzp : byte) (kernel_scale : float)
    (kernel : list byte) (bias : list Z)
    (ozp : byte) (output_scale : float) (output_min output_max : byte)
    (fully_connected_out : addr) (m : machine) (p : addr) (m' : machine) :
  qnnp_create_fully_connected_nc_q8 input_channels output_channels
    izp input_scale kzp kernel_scale kernel bias ozp output_scale
    output_min output_max fully_connected_out m
  = (qnnp_status_success, p, m') →
  ∃ op,
    heap m' !! p = Some (Struct op) ∧
    heap m' !! packed_kernel op
    = Some (Bytes (packed_contents (tile_width m) (tile_depth m)
                     output_channels input_channels kzp kernel bias)).
Proof.
  intros Hcreate.
  pose proof (create_success_inv _ _ _ _ _ _ _ _ _ _ _ _ _ _ _ _ Hcreate) as Hv.
  destruct (create_succeeds input_channels output_channels izp input_scale kzp
              kernel_scale kernel bias ozp output_scale output_min output_max
              fully_connected_out m Hv)
    as (m'' & Heq & Hheap & Hpq & _).
  rewrite Heq in Hcreate. injection Hcreate as <- <-.
  eexists. rewrite Hheap. split; [apply lookup_insert_eq |].
  cbn [packed_kernel created_operator set_created_fields set_packed_kernel].
  rewrite lookup_insert_ne by exact Hpq. apply lookup_insert_eq.
Qed.

(** C4, as amended: when the tile width and the tile depth are powers of
    two, the sums [output_channels + width - 1] and
    [input_channels + depth - 1] fit in 32 bits and the byte count fits in
    [size_t], the packed buffer of a successfully created operator has
    (output_channels rounded up to a multiple of the width) times
    ((input_channels rounded up to a multiple of the depth) + 4) bytes. *)
Theorem packed_buffer_size
    (input_channels output_channels : Z)
    (izp : byte) (input_scale : float) (kzp : byte) (kernel_scale : float)
    (kernel : list byte) (bias : list Z)
    (ozp : byte) (output_scale : float) (output_min output_max : byte)
    (fully_connected_out : addr) (m : machine) (p : addr) (m' : machine) :
  tile_geometry_ok (tile_width m) (tile_depth m)
    output_channels input_channels = true →
  qnnp_create_fully_connected_nc_q8 input_channels output_channels
    izp input_scale kzp kernel_scale kernel bias ozp output_scale
    output_min output_max fully_connected_out m
  = (qnnp_status_success, p, m') →
  ∃ op buf,
    heap m' !! p = Some (Struct op) ∧
    heap m' !! packed_kernel op = Some (Bytes buf) ∧
    Z.of_nat (length buf)
    = round_up output_channels (tile_width m)
      * (round_up input_channels (tile_depth m) + 4).
Proof.
  intros Hgeo Hcreate.
  destruct (created_blocks _ _ _ _ _ _ _ _ _ _ _ _ _ _ _ _ Hcreate)
    as (op & Hop & Hbuf).
  exists op. eexists. split; [exact Hop |]. split; [exact Hbuf |].
  destruct (packed_size_round_up _ _ _ _ Hgeo) as (_ & _ & Hsize).
  unfold packed_contents. rewrite store_all_length, length_replicate, Hsize.
  apply tile_geometry_ok_spec in Hgeo
    as (Hnr%power_of_two_pos & Hkr%power_of_two_pos & Hoc & Hic & _).
  pose proof (round_up_bounds output_channels _ Hnr) as [HN _].
  pose proof (round_up_bounds input_channels _ Hkr) as [HK _].
  apply Z2Nat.id. nia.
Qed.

(** The example of the specification: 5 output channels, 3 input
    channels, tile width 4 and tile depth 8 give 8 rows of 8 columns and
    the bias values of 2 tiles of 4 rows, 96 bytes. *)
Lemma packed_buffer_size_witness :
  let m := ready_machine 4 8 [true; true] in
  let r := qnnp_create_fully_connected_nc_q8 3 5 x00 f_half x80 f_half
             sample_kernel sample_bias x00 f_one x00 xff NULL m in
  (round_up 5 4 = 8 ∧ round_up 3 8 = 8 ∧ round_up 5 4 / 4 = 2) ∧
  ∃ op buf,
    heap r.2 !! r.1.2 = Some (Struct op) ∧
    heap r.2 !! packed_kernel op = Some (Bytes buf) ∧
    Z.of_nat (length buf) = round_up 5 4 * (round_up 3 8 + 4).
Proof.
  intros m r. split; [repeat split |].
  apply (packed_buffer_size 3 5 x00 f_half x80 f_half sample_kernel sample_bias
           x00 f_one x00 xff NULL m r.1.2 r.2);
    vm_compute; reflexivity.
Defined.

(** C4 as stated does not hold: with tile width 3 and tile depth 1, 2
    output channels and 3 input channels, Create succeeds and the packed
    buffer has 4 * (3 + 4) = 28 bytes, while rounding 2 up to a multiple
    of 3 gives 3 rows and 3 * (3 + 4) = 21 bytes. *)
Lemma packed_buffer_size_tile_width_three :
  let m := ready_machine 3 1 [true; true] in
  let r := qnnp_create_fully_connected_nc_q8 3 2 x00 f_half x80 f_half
             [x01; x02; x03; x04; x05; x06] [10; 20] x00 f_one x00 xff NULL m in
  r.1.1 = qnnp_status_success ∧
  ∃ op buf,
    heap r.2 !! r.1.2 = Some (Struct op) ∧
    heap r.2 !! packed_kernel op = Some (Bytes buf) ∧
    Z.of_nat (length buf) = 28 ∧
    round_up 2 3 * (round_up 3 1 + 4) = 21.
Proof.
  intros m r. split; [vm_compute; reflexivity |].
  eexists _, _. split; [vm_compute; reflexivity |].
  split; [vm_compute; reflexivity |].
  split; vm_compute; reflexivity.
Qed.

Lemma uint32_nonneg (x : Z) : 0 ≤ uint32 x.
Proof. unfold uint32. apply Z.mod_pos_bound. reflexivity. Qed.

(** C5: in the packed buffer of a successfully created operator, the byte
    of every cell of the padded matrix that lies beyond the true output
    rows or the true input columns is the kernel zero point: whatever the
    buffer holds at the place of such a cell is the kernel zero point, and
    when the tile sizes are powers of two and the sizes do not wrap the
    cell is in the buffer and reads back as the kernel zero point. *)
Theorem padding_holds_kernel_zero_point
    (input_channels output_channels : Z)
    (izp : byte) (input_scale : float) (kzp : byte) (kernel_scale : float)
    (kernel : list byte) (bias : list Z)
    (ozp : byte) (output_scale : float) (output_min output_max : byte)
    (fully_connected_out : addr) (m : machine) (p : addr) (m' : machine) :
  qnnp_create_fully_connected_nc_q8 input_channels output_channels
    izp input_scale kzp kernel_scale kernel bias ozp output_scale
    output_min output_max fully_connected_out m
  = (qnnp_status_success, p, m') →
  ∃ op buf,
    heap m' !! p = Some (Struct op) ∧
    heap m' !! packed_kernel op = Some (Bytes buf) ∧
    ∀ n c,
      0 ≤ n < round_up output_channels (tile_width m) →
      0 ≤ c < round_up input_channels (tile_depth m) →
      output_channels ≤ n ∨ input_channels ≤ c →
      let cell := Z.to_nat (weight_offset (tile_width m) (tile_depth m)
                              input_channels n c) in
      (∀ v, buf !! cell = Some v → v = kzp) ∧
      (tile_geometry_ok (tile_width m) (tile_depth m)
         output_channels input_channels = true →
       buf !! cell = Some kzp).
Proof.
  intros Hcreate.
  destruct (created_blocks _ _ _ _ _ _ _ _ _ _ _ _ _ _ _ _ Hcreate)
    as (op & Hop & Hbuf).
  exists op. eexists. split; [exact Hop |]. split; [exact Hbuf |].
  intros n c Hn Hc Hpad cell.
  assert (Hkept : ∀ v, packed_contents (tile_width m) (tile_depth m) output_channels
                         input_channels kzp kernel bias !! cell = Some v → v = kzp).
  { intros v. apply padding_cell_kept; try assumption; apply uint32_nonneg. }
  split; [exact Hkept |].
  intros Hgeo.
  destruct (padding_cell_present _ _ _ _ kzp kernel bias n c Hgeo Hn Hc) as [v Hv].
  fold cell in Hv. rewrite Hv. f_equal. apply Hkept, Hv.
Qed.

Lemma padding_holds_kernel_zero_point_witness :
  let m := ready_machine 4 8 [true; true] in
  let r := qnnp_create_fully_connected_nc_q8 3 5 x00 f_half x80 f_half
             sample_kernel sample_bias x00 f_one x00 xff NULL m in
  ∃ op buf,
    heap r.2 !! r.1.2 = Some (Struct op) ∧
    heap r.2 !! packed_kernel op = Some (Bytes buf) ∧
    ∀ n c,
      0 ≤ n < round_up 5 (tile_width m) →
      0 ≤ c < round_up 3 (tile_depth m) →
      5 ≤ n ∨ 3 ≤ c →
      let cell := Z.to_nat (weight_offset (tile_width m) (tile_depth m) 3 n c) in
      (∀ v, buf !! cell = Some v → v = x80) ∧
      (tile_geometry_ok (tile_width m) (tile_depth m) 5 3 = true →
       buf !! cell = Some x80).
Proof.
  intros m r.
  apply (padding_holds_kernel_zero_point 3 5 x00 f_half x80 f_half sample_kernel
           sample_bias x00 f_one x00 xff NULL m r.1.2 r.2).
  vm_compute; reflexivity.
Defined.

(** * Further properties of the code *)

(** ** What Create asks of the allocator *)

Lemma alloc_oracle_log_error (fmt : string) (args : list log_arg) (m : machine) :
  alloc_oracle (qnnp_log_error fmt args m) = alloc_oracle m.
Proof. reflexivity. Qed.

Lemma alloc_oracle_free (p : addr) (m : machine) :
  alloc_oracle (free p m) = alloc_oracle m.
Proof. unfold free. destruct (decide (p = NULL)); reflexivity. Qed.

Lemma alloc_oracle_delete (p : addr) (m : machine) :
  alloc_oracle (qnnp_delete_operator p m) = alloc_oracle m.
Proof.
  unfold qnnp_delete_operator. destruct (decide (p = NULL)); [reflexivity |].
  destruct (heap m !! p) as [[op | data] |]; try reflexivity.
  rewrite !alloc_oracle_free. reflexivity.
Qed.

Lemma alloc_oracle_modify (p : addr) (f : qnnp_operator → qnnp_operator) (m : machine) :
  alloc_oracle (modify_operator p f m) = alloc_oracle m.
Proof.
  unfold modify_operator. destruct (heap m !! p) as [[op | data] |]; reflexivity.
Qed.

Lemma alloc_oracle_memset (p : addr) (c : byte) (n : Z) (m : machine) :
  alloc_oracle (memset p c n m) = alloc_oracle m.
Proof.
  unfold memset. destruct (heap m !! p) as [[op | data] |]; reflexivity.
Qed.

Lemma alloc_oracle_pack (nc kc tile np depth : Z) (izp kzp : byte)
    (k : list byte) (b : list Z) (p : addr) (m : machine) :
  alloc_oracle (pack_q8gemm_w nc kc tile np depth izp kzp k b p m) = alloc_oracle m.
Proof.
  unfold pack_q8gemm_w. destruct (heap m !! p) as [[op | data] |]; reflexivity.
Qed.

Lemma allocate_oracle (b : block) (m : machine) :
  alloc_oracle (allocate b m).2 = tail (alloc_oracle m).
Proof. unfold allocate. destruct (alloc_oracle m) as [| [] rest]; reflexivity. Qed.

Lemma allocate_null_iff (b : block) (m : machine) :
  (allocate b m).1 = NULL ↔ head (alloc_oracle m) ≠ Some true.
Proof.
  unfold allocate. destruct (alloc_oracle m) as [| [] rest]; cbn [fst head].
  - split; [discriminate | reflexivity].
  - split; [intros H; destruct (fresh_addr_not_null _ H) | congruence].
  - split; [discriminate | reflexivity].
Qed.

Section CreateOutcome.

Variables (input_channels output_channels : Z).
Variables (input_zero_point : byte) (input_scale : float).
Variables (kernel_zero_point : byte) (kernel_scale : float).
Variables (kernel : list byte) (bias : list Z).
Variables (output_zero_point : byte) (output_scale : float).
Variables (output_min output_max : byte).
Variables (fully_connected_out : addr) (m : machine).

Local Abbreviation create :=
  (qnnp_create_fully_connected_nc_q8 input_channels output_channels
     input_zero_point input_scale kernel_zero_point kernel_scale kernel bias
     output_zero_point output_scale output_min output_max fully_connected_out m).

Local Abbreviation violation :=
  (first_violation m input_scale kernel_scale output_scale).

(** The status is the first violation, or success when there is none. *)
Lemma create_status :
  create.1.1 = default qnnp_status_success violation.
Proof.
  destruct violation as [e |] eqn:Hv.
  - destruct (create_fails input_channels output_channels input_zero_point
                input_scale kernel_zero_point kernel_scale kernel bias
                output_zero_point output_scale output_min output_max
                fully_connected_out m e Hv) as (m' & r & -> & _).
    reflexivity.
  - destruct (create_succeeds input_channels output_channels input_zero_point
                input_scale kernel_zero_point kernel_scale kernel bias
                output_zero_point output_scale output_min output_max
                fully_connected_out m Hv) as (m' & -> & _).
    reflexivity.
Qed.

Lemma create_oracle :
  alloc_oracle create.2 = oracle_after_create m create.1.1.
Proof.
  rewrite create_status.
  unfold first_violation, qnnp_create_fully_connected_nc_q8, error.
  change (fle input_scale f_zero || negb (isnormal input_scale))
    with (scale_check_fails input_scale).
  change (fle kernel_scale f_zero || negb (isnormal kernel_scale))
    with (scale_check_fails kernel_scale).
  change (fle output_scale f_zero || negb (isnormal output_scale))
    with (scale_check_fails output_scale).
  change (fdiv (fmul input_scale kernel_scale) output_scale)
    with (fused_scale input_scale kernel_scale output_scale).
  rewrite !scale_check_fails_invalid.
  destruct (initialized (qnnp_params m)); cbn [negb]; [| reflexivity].
  destruct (invalid_scale input_scale); cbn [orb]; [reflexivity |].
  destruct (invalid_scale kernel_scale); cbn [orb]; [reflexivity |].
  destruct (invalid_scale output_scale); cbn [orb]; [reflexivity |].
  destruct (fge _ f_one); [reflexivity |].
  unfold calloc_operator, malloc.
  destruct (alloc_oracle m) as [| [] rest] eqn:Horacle.
  - rewrite allocate_refused by (rewrite Horacle; discriminate).
    cbv beta iota zeta. rewrite decide_True by reflexivity.
    unfold oracle_after_create. rewrite Horacle. reflexivity.
  - rewrite (allocate_served _ _ rest Horacle). cbv beta iota zeta.
    rewrite decide_False by apply fresh_addr_not_null.
    destruct rest as [| [] rest'].
    + rewrite allocate_refused by (cbn; discriminate).
      cbv beta iota zeta. rewrite decide_True by reflexivity.
      cbn [snd].
      rewrite alloc_oracle_delete, alloc_oracle_log_error, alloc_oracle_modify.
      unfold oracle_after_create. rewrite Horacle. reflexivity.
    + rewrite (allocate_served _ _ rest') by reflexivity.
      cbv beta iota zeta. rewrite decide_False by apply fresh_addr_not_null.
      cbn [snd].
      rewrite alloc_oracle_modify, alloc_oracle_pack, alloc_oracle_memset,
        alloc_oracle_modify.
      unfold oracle_after_create. rewrite Horacle. reflexivity.
    + rewrite allocate_refused by (cbn; discriminate).
      cbv beta iota zeta. rewrite decide_True by reflexivity.
      cbn [snd].
      rewrite alloc_oracle_delete, alloc_oracle_log_error, alloc_oracle_modify.
      unfold oracle_after_create. rewrite Horacle. reflexivity.
  - rewrite allocate_refused by (rewrite Horacle; discriminate).
    cbv beta iota zeta. rewrite decide_True by reflexivity.
    unfold oracle_after_create. rewrite Horacle. reflexivity.
Qed.

Lemma create_params : qnnp_params create.2 = qnnp_params m.
Proof.
  destruct violation as [e |] eqn:Hv.
  - destruct (create_fails input_channels output_channels input_zero_point
                input_scale kernel_zero_point kernel_scale kernel bias
                output_zero_point output_scale output_min output_max
                fully_connected_out m e Hv) as (m' & r & -> & _ & Hp & _).
    exact Hp.
  - destruct (create_succeeds input_channels output_channels input_zero_point
                input_scale kernel_zero_point kernel_scale kernel bias
                output_zero_point output_scale output_min output_max
                fully_connected_out m Hv) as (m' & -> & _ & _ & _ & _ & Hp & _).
    exact Hp.
Qed.

End CreateOutcome.

(** X1: Create returns success exactly when the global context is
    initialized, each of the three scales is a positive normal float, the
    fused scale computed in single precision is below 1.0, and the
    allocator serves the next two requests. *)
Theorem create_success_iff
    (input_channels output_channels : Z)
    (izp : byte) (input_scale : float) (kzp : byte) (kernel_scale : float)
    (kernel : list byte) (bias : list Z)
    (ozp : byte) (output_scale : float) (output_min output_max : byte)
    (fully_connected_out : addr) (m : machine) :
  (qnnp_create_fully_connected_nc_q8 input_channels output_channels
     izp input_scale kzp kernel_scale kernel bias ozp output_scale
     output_min output_max fully_connected_out m).1.1 = qnnp_status_success
  ↔ initialized (qnnp_params m) = true ∧
    valid_scale input_scale = true ∧
    valid_scale kernel_scale = true ∧
    valid_scale output_scale = true ∧
    flt (fdiv (fmul input_scale kernel_scale) output_scale) f_one = true ∧
    ∃ rest, alloc_oracle m = true :: true :: rest.
Proof.
  rewrite create_status. split.
  - destruct (first_violation m input_scale kernel_scale output_scale)
      as [e |] eqn:Hv; cbn [default from_option id].
    + intros ->. destruct (first_violation_not_success _ _ _ _ Hv).
    + intros _.
      destruct (first_violation_none_inv _ _ _ _ Hv)
        as (Hinit & Hi & Hk & Ho & Hge & Horacle).
      repeat (split; [assumption |]).
      split; [| exact Horacle].
      apply not_fge_one_flt; [| exact Hge].
      apply fused_scale_unsigned; assumption.
  - intros (Hinit & Hi & Hk & Ho & Hlt & rest & Horacle).
    rewrite (first_violation_none m _ _ _ rest Hinit Hi Hk Ho Hlt Horacle).
    reflexivity.
Qed.

(** X2: the status Create returns is decided by the initialization
    flag, the three scales and the allocator alone: the channel counts,
    the zero points, the clamp bounds (whatever their order), the kernel,
    the bias and the caller's handle play no part in it. *)
Theorem create_status_ignores_data
    (ic ic' oc oc' : Z) (izp izp' kzp kzp' ozp ozp' : byte)
    (output_min output_min' output_max output_max' : byte)
    (kernel kernel' : list byte) (bias bias' : list Z)
    (input_scale kernel_scale output_scale : float)
    (out out' : addr) (m : machine) :
  (qnnp_create_fully_connected_nc_q8 ic oc izp input_scale kzp kernel_scale
     kernel bias ozp output_scale output_min output_max out m).1.1
  = (qnnp_create_fully_connected_nc_q8 ic' oc' izp' input_scale kzp' kernel_scale
       kernel' bias' ozp' output_scale output_min' output_max' out' m).1.1.
Proof. rewrite !create_status. reflexivity. Qed.

(** X3: a call of Create that fails a validation check (any failure
    other than out of memory) asks nothing of the allocator and leaves
    the heap and the global parameters as they were. *)
Theorem create_validation_asks_nothing
    (input_channels output_channels : Z)
    (izp : byte) (input_scale : float) (kzp : byte) (kernel_scale : float)
    (kernel : list byte) (bias : list Z)
    (ozp : byte) (output_scale : float) (output_min output_max : byte)
    (fully_connected_out : addr) (m : machine)
    (status : qnnp_status) (handle : addr) (m' : machine) :
  qnnp_create_fully_connected_nc_q8 input_channels output_channels
    izp input_scale kzp kernel_scale kernel bias ozp output_scale
    output_min output_max fully_connected_out m
  = (status, handle, m') →
  status ≠ qnnp_status_success →
  status ≠ qnnp_status_out_of_memory →
  alloc_oracle m' = alloc_oracle m ∧
  heap m' = heap m ∧
  qnnp_params m' = qnnp_params m.
Proof.
  intros Hcreate Hok Hoom.
  pose proof (create_oracle input_channels output_channels izp input_scale kzp
                kernel_scale kernel bias ozp output_scale output_min output_max
                fully_connected_out m) as Horacle.
  pose proof (create_params input_channels output_channels izp input_scale kzp
                kernel_scale kernel bias ozp output_scale output_min output_max
                fully_connected_out m) as Hparams.
  pose proof (create_status input_channels output_channels izp input_scale kzp
                kernel_scale kernel bias ozp output_scale output_min output_max
                fully_connected_out m) as Hstatus.
  rewrite Hcreate in Horacle, Hparams, Hstatus. cbn [fst snd] in *.
  split; [| split; [| exact Hparams]].
  - rewrite Horacle. destruct status; try reflexivity; contradiction.
  - destruct (first_violation m input_scale kernel_scale output_scale)
      as [e |] eqn:Hv; cbn [default from_option id] in Hstatus; [| contradiction].
    destruct (create_fails input_channels output_channels izp input_scale kzp
                kernel_scale kernel bias ozp output_scale output_min output_max
                fully_connected_out m e Hv) as (m'' & r & Heq & Hheap & _).
    rewrite Heq in Hcreate. injection Hcreate as _ _ <-. exact Hheap.
Qed.

Lemma create_validation_asks_nothing_witness :
  let m := ready_machine 4 8 [true; true] in
  let r := qnnp_create_fully_connected_nc_q8 3 5 x00 f_one x80 f_one
             sample_kernel sample_bias x00 f_half x00 xff NULL m in
  alloc_oracle r.2 = alloc_oracle m ∧
  heap r.2 = heap m ∧
  qnnp_params r.2 = qnnp_params m.
Proof.
  intros m r.
  apply (create_validation_asks_nothing 3 5 x00 f_one x80 f_one sample_kernel
           sample_bias x00 f_half x00 xff NULL m r.1.1 r.1.2 r.2);
    [vm_compute; reflexivity | vm_compute; discriminate ..].
Defined.

(** X4: when the allocator refuses the operator structure, Create
    returns out of memory without asking for the packed buffer: exactly
    one answer of the allocator is used up. *)
Theorem create_stops_at_refused_structure
    (input_channels output_channels : Z)
    (izp : byte) (input_scale : float) (kzp : byte) (kernel_scale : float)
    (kernel : list byte) (bias : list Z)
    (ozp : byte) (output_scale : float) (output_min output_max : byte)
    (fully_connected_out : addr) (m : machine) :
  initialized (qnnp_params m) = true →
  valid_scale input_scale = true →
  valid_scale kernel_scale = true →
  valid_scale output_scale = true →
  fge (fdiv (fmul input_scale kernel_scale) output_scale) f_one = false →
  head (alloc_oracle m) ≠ Some true →
  ∃ m',
    qnnp_create_fully_connected_nc_q8 input_channels output_channels
      izp input_scale kzp kernel_scale kernel bias ozp output_scale
      output_min output_max fully_connected_out m
    = (qnnp_status_out_of_memory, fully_connected_out, m') ∧
    alloc_oracle m' = tail (alloc_oracle m) ∧
    heap m' = heap m.
Proof.
  intros Hinit Hi Hk Ho Hge Hhead.
  assert (Hv : first_violation m input_scale kernel_scale output_scale
               = Some qnnp_status_out_of_memory).
  { unfold first_violation, fused_scale.
    rewrite Hinit, !invalid_scale_valid, Hi, Hk, Ho, Hge. cbn [negb orb].
    destruct (alloc_oracle m) as [| [] rest]; cbn [head] in Hhead;
      [reflexivity | congruence | reflexivity]. }
  destruct (create_fails input_channels output_channels izp input_scale kzp
              kernel_scale kernel bias ozp output_scale output_min output_max
              fully_connected_out m _ Hv) as (m' & r & Hcreate & Hheap & _).
  pose proof (create_oracle input_channels output_channels izp input_scale kzp
                kernel_scale kernel bias ozp output_scale output_min output_max
                fully_connected_out m) as Horacle.
  rewrite Hcreate in Horacle. cbn [fst snd oracle_after_create] in Horacle.
  exists m'. split; [exact Hcreate |]. split; [| exact Hheap].
  rewrite Horacle.
  destruct (alloc_oracle m) as [| [] rest]; cbn [head] in Hhead;
    [reflexivity | congruence | reflexivity].
Qed.

Lemma create_stops_at_refused_structure_witness :
  ∃ m',
    qnnp_create_fully_connected_nc_q8 3 5 x00 f_half x80 f_half
      sample_kernel sample_bias x00 f_one x00 xff NULL
      (ready_machine 4 8 [false; true; true])
    = (qnnp_status_out_of_memory, NULL, m') ∧
    alloc_oracle m' = tail (alloc_oracle (ready_machine 4 8 [false; true; true])) ∧
    heap m' = heap (ready_machine 4 8 [false; true; true]).
Proof.
  apply (create_stops_at_refused_structure 3 5 x00 f_half x80 f_half
           sample_kernel sample_bias x00 f_one x00 xff NULL
           (ready_machine 4 8 [false; true; true]));
    [reflexivity .. | discriminate].
Defined.

(** ** What a successful Create leaves in the heap *)

Lemma packed_size_nonneg (n k : Z) : 0 ≤ packed_size n k.
Proof. unfold packed_size, usize. apply Z.mod_pos_bound. reflexivity. Qed.

Lemma packed_contents_length (tile depth oc ic : Z) (kzp : byte)
    (kernel : list byte) (bias : list Z) :
  Z.of_nat (length (packed_contents tile depth oc ic kzp kernel bias))
  = packed_size (stride oc tile) (stride ic depth).
Proof.
  unfold packed_contents. rewrite store_all_length, length_replicate.
  apply Z2Nat.id, packed_size_nonneg.
Qed.

Lemma create_footprint
    (input_channels output_channels : Z)
    (izp : byte) (input_scale : float) (kzp : byte) (kernel_scale : float)
    (kernel : list byte) (bias : list Z)
    (ozp : byte) (output_scale : float) (output_min output_max : byte)
    (fully_connected_out : addr) (m : machine) (p : addr) (m' : machine) :
  qnnp_create_fully_connected_nc_q8 input_channels output_channels
    izp input_scale kzp kernel_scale kernel bias ozp output_scale
    output_min output_max fully_connected_out m
  = (qnnp_status_success, p, m') →
  ∃ q,
    p ≠ NULL ∧ q ≠ NULL ∧ p ≠ q ∧
    heap m !! p = None ∧ heap m !! q = None ∧
    heap m' =
      <[p := Struct (created_operator q input_channels output_channels izp kzp
                       (fused_scale input_scale kernel_scale output_scale)
                       ozp output_min output_max)]>
        (<[q := Bytes (packed_contents (tile_width m) (tile_depth m)
                         output_channels input_channels kzp kernel bias)]>
           (heap m)).
Proof.
  intros Hcreate.
  pose proof (create_success_inv _ _ _ _ _ _ _ _ _ _ _ _ _ _ _ _ Hcreate) as Hv.
  destruct (create_succeeds input_channels output_channels izp input_scale kzp
              kernel_scale kernel bias ozp output_scale output_min output_max
              fully_connected_out m Hv)
    as (m'' & Heq & Hheap & Hpq & Hp & Hq & _).
  rewrite Heq in Hcreate. injection Hcreate as <- <-.
  eexists. split; [apply fresh_addr_not_null |].
  split; [apply fresh_addr_not_null |].
  repeat (split; [eassumption |]). exact Hheap.
Qed.

(** X5: a successful Create returns a non-null handle that was not live
    before; the heap afterwards is the heap before plus exactly two
    blocks, the operator structure at the handle and a byte block at its
    packed-kernel pointer, which is non-null and different from the
    handle; every block that was live before is unchanged; the byte block
    has [n_stride * (k_stride + 4)] bytes, computed in [size_t]; two
    answers of the allocator are used up and nothing is logged. *)
Theorem create_success_footprint
    (input_channels output_channels : Z)
    (izp : byte) (input_scale : float) (kzp : byte) (kernel_scale : float)
    (kernel : list byte) (bias : list Z)
    (ozp : byte) (output_scale : float) (output_min output_max : byte)
    (fully_connected_out : addr) (m : machine) (p : addr) (m' : machine) :
  qnnp_create_fully_connected_nc_q8 input_channels output_channels
    izp input_scale kzp kernel_scale kernel bias ozp output_scale
    output_min output_max fully_connected_out m
  = (qnnp_status_success, p, m') →
  ∃ op buf,
    p ≠ NULL ∧ packed_kernel op ≠ NULL ∧ packed_kernel op ≠ p ∧
    heap m !! p = None ∧ heap m !! packed_kernel op = None ∧
    heap m' !! p = Some (Struct op) ∧
    heap m' !! packed_kernel op = Some (Bytes buf) ∧
    dom (heap m') = {[p; packed_kernel op]} ∪ dom (heap m) ∧
    (∀ a b, heap m !! a = Some b → heap m' !! a = Some b) ∧
    Z.of_nat (length buf)
    = packed_size (stride output_channels (tile_width m))
        (stride input_channels (tile_depth m)) ∧
    alloc_oracle m' = tail (tail (alloc_oracle m)) ∧
    log m' = log m.
Proof.
  intros Hcreate.
  destruct (create_footprint _ _ _ _ _ _ _ _ _ _ _ _ _ _ _ _ Hcreate)
    as (q & Hp0 & Hq0 & Hpq & Hp & Hq & Hheap).
  pose proof (create_oracle input_channels output_channels izp input_scale kzp
                kernel_scale kernel bias ozp output_scale output_min output_max
                fully_connected_out m) as Horacle.
  pose proof (create_success_inv _ _ _ _ _ _ _ _ _ _ _ _ _ _ _ _ Hcreate) as Hv.
  destruct (create_succeeds input_channels output_channels izp input_scale kzp
              kernel_scale kernel bias ozp output_scale output_min output_max
              fully_connected_out m Hv)
    as (m'' & Heq & _ & _ & _ & _ & _ & Hlog).
  rewrite Hcreate in Horacle, Heq. injection Heq as _ <-.
  cbn [fst snd oracle_after_create] in Horacle.
  exists (created_operator q input_channels output_channels izp kzp
            (fused_scale input_scale kernel_scale output_scale)
            ozp output_min output_max),
         (packed_contents (tile_width m) (tile_depth m)
            output_channels input_channels kzp kernel bias).
  change (packed_kernel (created_operator q input_channels output_channels izp kzp
                           (fused_scale input_scale kernel_scale output_scale)
                           ozp output_min output_max)) with q.
  split; [exact Hp0 |]. split; [exact Hq0 |]. split; [congruence |].
  split; [exact Hp |]. split; [exact Hq |].
  rewrite Hheap.
  split; [apply lookup_insert_eq |].
  split; [rewrite lookup_insert_ne by exact Hpq; apply lookup_insert_eq |].
  split; [rewrite !dom_insert_L; apply (assoc_L (∪)) |].
  split.
  { intros a b Ha.
    rewrite !lookup_insert_ne by (intros ->; congruence). exact Ha. }
  split; [apply packed_contents_length |].
  split; [exact Horacle | exact Hlog].
Qed.

Lemma create_success_footprint_witness :
  let m := ready_machine 4 8 [true; true; false] in
  let r := qnnp_create_fully_connected_nc_q8 3 5 x00 f_half x80 f_half
             sample_kernel sample_bias x00 f_one x00 xff NULL m in
  ∃ op buf,
    r.1.2 ≠ NULL ∧ packed_kernel op ≠ NULL ∧ packed_kernel op ≠ r.1.2 ∧
    heap m !! r.1.2 = None ∧ heap m !! packed_kernel op = None ∧
    heap r.2 !! r.1.2 = Some (Struct op) ∧
    heap r.2 !! packed_kernel op = Some (Bytes buf) ∧
    dom (heap r.2) = {[r.1.2; packed_kernel op]} ∪ dom (heap m) ∧
    (∀ a b, heap m !! a = Some b → heap r.2 !! a = Some b) ∧
    Z.of_nat (length buf)
    = packed_size (stride 5 (tile_width m)) (stride 3 (tile_depth m)) ∧
    alloc_oracle r.2 = tail (tail (alloc_oracle m)) ∧
    log r.2 = log m.
Proof.
  intros m r.
  apply (create_success_footprint 3 5 x00 f_half x80 f_half sample_kernel
           sample_bias x00 f_one x00 xff NULL m r.1.2 r.2).
  vm_compute; reflexivity.
Defined.

(** X6: in the operator a successful Create returns, the fields Setup
    will assign are still zero, as [calloc] left them (batch size,
    heights, widths and strides 0, input and output pointers null), the
    group count is 1, the channel counts and the two zero points are the
    arguments, the format is [qnnp_format_quint8] and the flags word is
    [QNNP_CONVOLUTION_FLAG_GEMM]. *)
Theorem created_operator_fields
    (input_channels output_channels : Z)
    (izp : byte) (input_scale : float) (kzp : byte) (kernel_scale : float)
    (kernel : list byte) (bias : list Z)
    (ozp : byte) (output_scale : float) (output_min output_max : byte)
    (fully_connected_out : addr) (m : machine) (p : addr) (m' : machine) :
  qnnp_create_fully_connected_nc_q8 input_channels output_channels
    izp input_scale kzp kernel_scale kernel bias ozp output_scale
    output_min output_max fully_connected_out m
  = (qnnp_status_success, p, m') →
  ∃ op,
    heap m' !! p = Some (Struct op) ∧
    (batch_size op = 0 ∧ input_height op = 0 ∧ input_width op = 0 ∧
     input op = NULL ∧ input_pixel_stride op = 0 ∧
     output_height op = 0 ∧ output_width op = 0 ∧
     output op = NULL ∧ output_pixel_stride op = 0) ∧
    groups op = 1 ∧
    group_input_channels op = input_channels ∧
    group_output_channels op = output_channels ∧
    input_zero_point op = izp ∧
    kernel_zero_point op = kzp ∧
    format op = qnnp_format_quint8 ∧
    flags op = QNNP_CONVOLUTION_FLAG_GEMM.
Proof.
  intros Hcreate.
  destruct (create_footprint _ _ _ _ _ _ _ _ _ _ _ _ _ _ _ _ Hcreate)
    as (q & _ & _ & _ & _ & _ & Hheap).
  eexists. rewrite Hheap. split; [apply lookup_insert_eq |].
  repeat split.
Qed.

Lemma created_operator_fields_witness :
  let m := ready_machine 4 8 [true; true] in
  let r := qnnp_create_fully_connected_nc_q8 3 5 x07 f_half x80 f_half
             sample_kernel sample_bias x00 f_one x00 xff NULL m in
  ∃ op,
    heap r.2 !! r.1.2 = Some (Struct op) ∧
    (batch_size op = 0 ∧ input_height op = 0 ∧ input_width op = 0 ∧
     input op = NULL ∧ input_pixel_stride op = 0 ∧
     output_height op = 0 ∧ output_width op = 0 ∧
     output op = NULL ∧ output_pixel_stride op = 0) ∧
    groups op = 1 ∧
    group_input_channels op = 3 ∧
    group_output_channels op = 5 ∧
    input_zero_point op = x07 ∧
    kernel_zero_point op = x80 ∧
    format op = qnnp_format_quint8 ∧
    flags op = QNNP_CONVOLUTION_FLAG_GEMM.
Proof.
  intros m r.
  apply (created_operator_fields 3 5 x07 f_half x80 f_half sample_kernel
           sample_bias x00 f_one x00 xff NULL m r.1.2 r.2).
  vm_compute; reflexivity.
Defined.

(** X7: a second successful Create does not disturb the first operator:
    its handle and its packed buffer are different from the first ones,
    and the first operator structure and the first packed buffer are in
    the heap unchanged. *)
Theorem create_twice_disjoint
    (ic1 oc1 : Z) (izp1 : byte) (is1 : float) (kzp1 : byte) (ks1 : float)
    (kernel1 : list byte) (bias1 : list Z) (ozp1 : byte) (os1 : float)
    (min1 max1 : byte) (out1 : addr)
    (ic2 oc2 : Z) (izp2 : byte) (is2 : float) (kzp2 : byte) (ks2 : float)
    (kernel2 : list byte) (bias2 : list Z) (ozp2 : byte) (os2 : float)
    (min2 max2 : byte) (out2 : addr)
    (m : machine) (p1 : addr) (m1 : machine) (p2 : addr) (m2 : machine) :
  qnnp_create_fully_connected_nc_q8 ic1 oc1 izp1 is1 kzp1 ks1 kernel1 bias1
    ozp1 os1 min1 max1 out1 m
  = (qnnp_status_success, p1, m1) →
  qnnp_create_fully_connected_nc_q8 ic2 oc2 izp2 is2 kzp2 ks2 kernel2 bias2
    ozp2 os2 min2 max2 out2 m1
  = (qnnp_status_success, p2, m2) →
  ∃ op1 buf1 op2,
    heap m1 !! p1 = Some (Struct op1) ∧
    heap m1 !! packed_kernel op1 = Some (Bytes buf1) ∧
    heap m2 !! p1 = Some (Struct op1) ∧
    heap m2 !! packed_kernel op1 = Some (Bytes buf1) ∧
    heap m2 !! p2 = Some (Struct op2) ∧
    p2 ≠ p1 ∧ p2 ≠ packed_kernel op1 ∧
    packed_kernel op2 ≠ p1 ∧ packed_kernel op2 ≠ packed_kernel op1.
Proof.
  intros H1 H2.
  destruct (create_footprint _ _ _ _ _ _ _ _ _ _ _ _ _ _ _ _ H1)
    as (q1 & _ & _ & Hpq1 & _ & _ & Hheap1).
  destruct (create_footprint _ _ _ _ _ _ _ _ _ _ _ _ _ _ _ _ H2)
    as (q2 & _ & _ & Hpq2 & Hp2 & Hq2 & Hheap2).
  assert (Hop1 : heap m1 !! p1
                 = Some (Struct (created_operator q1 ic1 oc1 izp1 kzp1
                                   (fused_scale is1 ks1 os1) ozp1 min1 max1))).
  { rewrite Hheap1. apply lookup_insert_eq. }
  assert (Hbuf1 : heap m1 !! q1
                  = Some (Bytes (packed_contents (tile_width m) (tile_depth m)
                                   oc1 ic1 kzp1 kernel1 bias1))).
  { rewrite Hheap1, lookup_insert_ne by exact Hpq1. apply lookup_insert_eq. }
  exists (created_operator q1 ic1 oc1 izp1 kzp1
            (fused_scale is1 ks1 os1) ozp1 min1 max1),
         (packed_contents (tile_width m) (tile_depth m) oc1 ic1 kzp1 kernel1 bias1),
         (created_operator q2 ic2 oc2 izp2 kzp2
            (fused_scale is2 ks2 os2) ozp2 min2 max2).
  change (packed_kernel (created_operator q1 ic1 oc1 izp1 kzp1
                           (fused_scale is1 ks1 os1) ozp1 min1 max1)) with q1.
  change (packed_kernel (created_operator q2 ic2 oc2 izp2 kzp2
                           (fused_scale is2 ks2 os2) ozp2 min2 max2)) with q2.
  split; [exact Hop1 |]. split; [exact Hbuf1 |].
  assert (Hp21 : p2 ≠ p1) by congruence.
  assert (Hp2q1 : p2 ≠ q1) by congruence.
  assert (Hq2p1 : q2 ≠ p1) by congruence.
  assert (Hq2q1 : q2 ≠ q1) by congruence.
  rewrite Hheap2.
  split; [rewrite !lookup_insert_ne by congruence; exact Hop1 |].
  split; [rewrite !lookup_insert_ne by congruence; exact Hbuf1 |].
  split; [apply lookup_insert_eq |].
  repeat split; assumption.
Qed.

Lemma create_twice_disjoint_witness :
  let m := ready_machine 4 8 [true; true; true; true] in
  let r1 := qnnp_create_fully_connected_nc_q8 3 5 x00 f_half x80 f_half
              sample_kernel sample_bias x00 f_one x00 xff NULL m in
  let r2 := qnnp_create_fully_connected_nc_q8 1 1 x00 f_half x10 f_half
              [x09] [7] x00 f_one x00 xff NULL r1.2 in
  ∃ op1 buf1 op2,
    heap r1.2 !! r1.1.2 = Some (Struct op1) ∧
    heap r1.2 !! packed_kernel op1 = Some (Bytes buf1) ∧
    heap r2.2 !! r1.1.2 = Some (Struct op1) ∧
    heap r2.2 !! packed_kernel op1 = Some (Bytes buf1) ∧
    heap r2.2 !! r2.1.2 = Some (Struct op2) ∧
    r2.1.2 ≠ r1.1.2 ∧ r2.1.2 ≠ packed_kernel op1 ∧
    packed_kernel op2 ≠ r1.1.2 ∧ packed_kernel op2 ≠ packed_kernel op1.
Proof.
  intros m r1 r2.
  apply (create_twice_disjoint 3 5 x00 f_half x80 f_half sample_kernel sample_bias
           x00 f_one x00 xff NULL 1 1 x00 f_half x10 f_half [x09] [7]
           x00 f_one x00 xff NULL m r1.1.2 r1.2 r2.1.2 r2.2);
    vm_compute; reflexivity.
Defined.

(** ** The strides *)

(** X8: for a power-of-two tile and a channel count whose sum with the
    tile fits in 32 bits, the stride [(channels + (tile - 1)) & -tile] is
    the least multiple of the tile that is not below the channel count. *)
Theorem stride_least_multiple (c t : Z) :
  power_of_two t = true → 0 ≤ c → c + t - 1 < 2 ^ 32 →
  (t | stride c t) ∧ c ≤ stride c t < c + t ∧
  ∀ x, (t | x) → c ≤ x → stride c t ≤ x.
Proof.
  intros Hpow Hc Hfit.
  pose proof (power_of_two_pos t Hpow) as Ht.
  rewrite (stride_round_up c t Hpow Hc Hfit).
  pose proof (round_up_bounds c t Ht) as [Hb _].
  split; [apply round_up_multiple |]. split; [exact Hb |].
  intros x [b ->] Hx.
  destruct (round_up_multiple c t) as [a Ha]. rewrite Ha in *.
  assert (a ≤ b); nia.
Qed.

Lemma stride_least_multiple_witness :
  (4 | stride 5 4) ∧ 5 ≤ stride 5 4 < 5 + 4 ∧
  ∀ x, (4 | x) → 5 ≤ x → stride 5 4 ≤ x.
Proof. apply (stride_least_multiple 5 4); [reflexivity | lia | reflexivity]. Defined.

Lemma mod_mod_32_64 (x : Z) : (x mod 2 ^ 64) mod 2 ^ 32 = x mod 2 ^ 32.
Proof.
  apply Z.mod_mod_divide. exists (2 ^ 32). reflexivity.
Qed.

Lemma land_low_32 (x y : Z) :
  0 ≤ y < 2 ^ 32 → Z.land x y = Z.land (x mod 2 ^ 32) y.
Proof.
  intros Hy.
  rewrite <- (Z.land_ones x 32) by lia.
  rewrite <- Z.land_assoc, (Z.land_comm (Z.ones 32) y), Z.land_ones by lia.
  rewrite (Z.mod_small y) by lia. reflexivity.
Qed.

Lemma uint32_range (x : Z) : 0 ≤ uint32 x < 2 ^ 32.
Proof. unfold uint32. apply Z.mod_pos_bound. reflexivity. Qed.

(** X9: the stride is computed from the low 32 bits of the channel
    count: adding 2^32 channels does not change it, whatever the tile. *)
Theorem stride_wraps_at_32_bits (c t : Z) :
  stride (c + 2 ^ 32) t = stride c t.
Proof.
  unfold stride. f_equal.
  rewrite (land_low_32 (usize (c + 2 ^ 32 + uint32 (t - 1)))) by apply uint32_range.
  rewrite (land_low_32 (usize (c + uint32 (t - 1)))) by apply uint32_range.
  unfold usize. rewrite !mod_mod_32_64. f_equal.
  replace (c + 2 ^ 32 + uint32 (t - 1)) with (c + uint32 (t - 1) + 1 * 2 ^ 32) by lia.
  apply Z_mod_plus_full.
Qed.

Lemma stride_zero (t : Z) : stride 0 t = 0.
Proof.
  unfold stride, usize. rewrite Z.add_0_l.
  rewrite (Z.mod_small (uint32 (t - 1))) by (pose proof (uint32_range (t - 1)); lia).
  replace (Z.land (uint32 (t - 1)) (uint32 (- t))) with 0; [reflexivity |].
  symmetry. unfold uint32. rewrite <- !Z.land_ones by lia.
  replace (- t) with (Z.lnot (t - 1)) by (unfold Z.lnot; lia).
  apply Z.bits_inj'; intros n Hn.
  rewrite !Z.land_spec, Z.lnot_spec, Z.bits_0 by lia.
  destruct (Z.testbit (t - 1) n); [apply andb_false_r | reflexivity].
Qed.

Lemma stride_range (c t : Z) : 0 ≤ stride c t < 2 ^ 32.
Proof. unfold stride. apply uint32_range. Qed.

(** X10: with zero output channels a successful Create has asked for a
    packed buffer of zero bytes, whatever the tile sizes and the input
    channel count: the packed-kernel block is empty. *)
Theorem create_zero_output_channels_empty_buffer
    (input_channels : Z)
    (izp : byte) (input_scale : float) (kzp : byte) (kernel_scale : float)
    (kernel : list byte) (bias : list Z)
    (ozp : byte) (output_scale : float) (output_min output_max : byte)
    (fully_connected_out : addr) (m : machine) (p : addr) (m' : machine) :
  qnnp_create_fully_connected_nc_q8 input_channels 0
    izp input_scale kzp kernel_scale kernel bias ozp output_scale
    output_min output_max fully_connected_out m
  = (qnnp_status_success, p, m') →
  ∃ op,
    heap m' !! p = Some (Struct op) ∧
    heap m' !! packed_kernel op = Some (Bytes []).
Proof.
  intros Hcreate.
  destruct (created_blocks _ _ _ _ _ _ _ _ _ _ _ _ _ _ _ _ Hcreate)
    as (op & Hop & Hbuf).
  exists op. split; [exact Hop |]. rewrite Hbuf. do 2 f_equal.
  apply nil_length_inv, Nat2Z.inj. rewrite packed_contents_length.
  rewrite stride_zero. unfold packed_size, usize.
  rewrite Z.mul_0_l. reflexivity.
Qed.

Lemma create_zero_output_channels_empty_buffer_witness :
  let m := ready_machine 4 8 [true; true] in
  let r := qnnp_create_fully_connected_nc_q8 3 0 x00 f_half x80 f_half
             [] [] x00 f_one x00 xff NULL m in
  ∃ op,
    heap r.2 !! r.1.2 = Some (Struct op) ∧
    heap r.2 !! packed_kernel op = Some (Bytes []).
Proof.
  intros m r.
  apply (create_zero_output_channels_empty_buffer 3 x00 f_half x80 f_half
           [] [] x00 f_one x00 xff NULL m r.1.2 r.2).
  vm_compute; reflexivity.
Defined.

(** X11: with zero input channels the packed buffer of a successful
    Create has no weight bytes: it has four bytes, the room of one bias
    value, for each of the [n_stride] padded output rows. *)
Theorem create_zero_input_channels_bias_only
    (output_channels : Z)
    (izp : byte) (input_scale : float) (kzp : byte) (kernel_scale : float)
    (kernel : list byte) (bias : list Z)
    (ozp : byte) (output_scale : float) (output_min output_max : byte)
    (fully_connected_out : addr) (m : machine) (p : addr) (m' : machine) :
  qnnp_create_fully_connected_nc_q8 0 output_channels
    izp input_scale kzp kernel_scale kernel bias ozp output_scale
    output_min output_max fully_connected_out m
  = (qnnp_status_success, p, m') →
  ∃ op buf,
    heap m' !! p = Some (Struct op) ∧
    heap m' !! packed_kernel op = Some (Bytes buf) ∧
    Z.of_nat (length buf) = 4 * stride output_channels (tile_width m).
Proof.
  intros Hcreate.
  destruct (created_blocks _ _ _ _ _ _ _ _ _ _ _ _ _ _ _ _ Hcreate)
    as (op & Hop & Hbuf).
  exists op. eexists. split; [exact Hop |]. split; [exact Hbuf |].
  rewrite packed_contents_length, stride_zero.
  pose proof (stride_range output_channels (tile_width m)) as Hn.
  unfold packed_size, usize. rewrite Z.mul_0_l.
  rewrite (Z.mod_small 0), (Z.mod_small (0 + 4)) by lia.
  rewrite Z.mod_small by lia. lia.
Qed.

Lemma create_zero_input_channels_bias_only_witness :
  let m := ready_machine 4 8 [true; true] in
  let r := qnnp_create_fully_connected_nc_q8 0 5 x00 f_half x80 f_half
             [] sample_bias x00 f_one x00 xff NULL m in
  ∃ op buf,
    heap r.2 !! r.1.2 = Some (Struct op) ∧
    heap r.2 !! packed_kernel op = Some (Bytes buf) ∧
    Z.of_nat (length buf) = 4 * stride 5 (tile_width m).
Proof.
  intros m r.
  apply (create_zero_input_channels_bias_only 5 x00 f_half x80 f_half
           [] sample_bias x00 f_one x00 xff NULL m r.1.2 r.2).
  vm_compute; reflexivity.
Defined.

(** ** The fused scale and its guard *)

(** X12: for three scales that passed validation the fused scale is
    never NaN, so the guard [requantization_scale >= 1.0f] decides: it is
    false exactly when the fused scale is below 1.0. *)
Theorem fused_scale_guard_decides (input_scale kernel_scale output_scale : float) :
  valid_scale input_scale = true →
  valid_scale kernel_scale = true →
  valid_scale output_scale = true →
  fge (fdiv (fmul input_scale kernel_scale) output_scale) f_one
  = negb (flt (fdiv (fmul input_scale kernel_scale) output_scale) f_one).
Proof.
  intros Hi Hk Ho.
  pose proof (fused_scale_unsigned _ _ _ Hi Hk Ho) as Hsign.
  unfold fused_scale in Hsign.
  destruct (fge (fdiv (fmul input_scale kernel_scale) output_scale) f_one) eqn:Hge.
  - destruct (flt (fdiv (fmul input_scale kernel_scale) output_scale) f_one) eqn:Hlt;
      [| reflexivity].
    rewrite (flt_one_not_fge _ Hlt) in Hge. discriminate.
  - rewrite (not_fge_one_flt _ Hsign Hge). reflexivity.
Qed.

Lemma fused_scale_guard_decides_witness :
  fge (fdiv (fmul f_half f_tiny) f_huge) f_one
  = negb (flt (fdiv (fmul f_half f_tiny) f_huge) f_one).
Proof. apply (fused_scale_guard_decides f_half f_tiny f_huge); reflexivity. Defined.

(** X13: when the single-precision product of two valid scales
    overflows to infinity, Create (with the global context initialized)
    fails with [qnnp_status_unsupported_parameter], whatever the valid
    output scale. *)
Theorem create_rejects_overflowing_product
    (input_channels output_channels : Z)
    (izp : byte) (input_scale : float) (kzp : byte) (kernel_scale : float)
    (kernel : list byte) (bias : list Z)
    (ozp : byte) (output_scale : float) (output_min output_max : byte)
    (fully_connected_out : addr) (m : machine) :
  initialized (qnnp_params m) = true →
  valid_scale input_scale = true →
  valid_scale kernel_scale = true →
  valid_scale output_scale = true →
  fmul input_scale kernel_scale = S754_infinity false →
  ∃ m',
    qnnp_create_fully_connected_nc_q8 input_channels output_channels
      izp input_scale kzp kernel_scale kernel bias ozp output_scale
      output_min output_max fully_connected_out m
    = (qnnp_status_unsupported_parameter, fully_connected_out, m').
Proof.
  intros Hinit Hi Hk Ho Hinf.
  assert (Hv : first_violation m input_scale kernel_scale output_scale
               = Some qnnp_status_unsupported_parameter).
  { unfold first_violation, fused_scale.
    rewrite Hinit, !invalid_scale_valid, Hi, Hk, Ho, Hinf.
    destruct (valid_scale_finite _ Ho) as (mo & eo & ->). reflexivity. }
  destruct (create_fails input_channels output_channels izp input_scale kzp
              kernel_scale kernel bias ozp output_scale output_min output_max
              fully_connected_out m _ Hv) as (m' & r & Hcreate & _).
  exists m'. exact Hcreate.
Qed.

Lemma create_rejects_overflowing_product_witness :
  ∃ m',
    qnnp_create_fully_connected_nc_q8 3 5 x00 f_huge x80 f_huge
      sample_kernel sample_bias x00 f_huge x00 xff NULL (ready_machine 4 8 [true; true])
    = (qnnp_status_unsupported_parameter, NULL, m').
Proof.
  apply (create_rejects_overflowing_product 3 5 x00 f_huge x80 f_huge
           sample_kernel sample_bias x00 f_huge x00 xff NULL
           (ready_machine 4 8 [true; true]));
    vm_compute; reflexivity.
Defined.

(** X14: when the single-precision product of two valid scales
    underflows to zero, no check of Create fires: with the global context
    initialized and both allocations served Create returns success,
    whatever the valid output scale. *)
Theorem create_accepts_underflowing_product
    (input_channels output_channels : Z)
    (izp : byte) (input_scale : float) (kzp : byte) (kernel_scale : float)
    (kernel : list byte) (bias : list Z)
    (ozp : byte) (output_scale : float) (output_min output_max : byte)
    (fully_connected_out : addr) (m : machine) (rest : list bool) :
  initialized (qnnp_params m) = true →
  valid_scale input_scale = true →
  valid_scale kernel_scale = true →
  valid_scale output_scale = true →
  fmul input_scale kernel_scale = S754_zero false →
  alloc_oracle m = true :: true :: rest →
  ∃ p m',
    qnnp_create_fully_connected_nc_q8 input_channels output_channels
      izp input_scale kzp kernel_scale kernel bias ozp output_scale
      output_min output_max fully_connected_out m
    = (qnnp_status_success, p, m').
Proof.
  intros Hinit Hi Hk Ho Hzero Horacle.
  assert (Hlt : flt (fused_scale input_scale kernel_scale output_scale) f_one = true).
  { unfold fused_scale. rewrite Hzero.
    destruct (valid_scale_finite _ Ho) as (mo & eo & ->). reflexivity. }
  pose proof (first_violation_none m _ _ _ rest Hinit Hi Hk Ho Hlt Horacle) as Hv.
  destruct (create_succeeds input_channels output_channels izp input_scale kzp
              kernel_scale kernel bias ozp output_scale output_min output_max
              fully_connected_out m Hv) as (m' & Hcreate & _).
  eexists _, m'. exact Hcreate.
Qed.

Lemma create_accepts_underflowing_product_witness :
  ∃ p m',
    qnnp_create_fully_connected_nc_q8 3 5 x00 f_tiny x80 f_tiny
      sample_kernel sample_bias x00 f_half x00 xff NULL (ready_machine 4 8 [true; true])
    = (qnnp_status_success, p, m').
Proof.
  apply (create_accepts_underflowing_product 3 5 x00 f_tiny x80 f_tiny
           sample_kernel sample_bias x00 f_half x00 xff NULL
           (ready_machine 4 8 [true; true]) []);
    vm_compute; reflexivity.
Defined.

(** ** Setup, again and again *)

(** X15: a call of Setup that does not return success has not touched
    the handle: whatever the handle is, null or dangling included, the
    heap, the allocator and the global parameters are as before and one
    diagnostic is logged; the context check comes before the batch-size
    check. *)
Theorem setup_failure_touches_nothing
    (convolution : addr) (rows : Z) (src : addr) (src_stride : Z)
    (dst : addr) (dst_stride : Z) (threadpool : addr)
    (m : machine) (status : qnnp_status) (m' : machine) :
  qnnp_setup_fully_connected_nc_q8 convolution rows src src_stride dst dst_stride
    threadpool m = (status, m') →
  status ≠ qnnp_status_success →
  (status = qnnp_status_uninitialized ↔ initialized (qnnp_params m) = false) ∧
  (status = qnnp_status_invalid_parameter
   ↔ initialized (qnnp_params m) = true ∧ rows = 0) ∧
  heap m' = heap m ∧
  alloc_oracle m' = alloc_oracle m ∧
  qnnp_params m' = qnnp_params m ∧
  ∃ r, log m' = log m ++ [r].
Proof.
  unfold qnnp_setup_fully_connected_nc_q8.
  destruct (initialized (qnnp_params m)); cbn [negb].
  - destruct (decide (rows = 0)) as [Hrows | Hrows].
    + intros [= <- <-] _. cbn.
      split; [split; discriminate |]. split; [tauto |]. eauto 10.
    + intros [= <- <-] Hne. contradiction.
  - intros [= <- <-] _. cbn.
    split; [tauto |]. split; [split; [discriminate | intros [? _]; discriminate] |].
    eauto 10.
Qed.

Lemma setup_failure_touches_nothing_witness :
  let r := qnnp_setup_fully_connected_nc_q8 NULL 0 100 3 200 5 0 unready_machine in
  (r.1 = qnnp_status_uninitialized ↔ initialized (qnnp_params unready_machine) = false) ∧
  (r.1 = qnnp_status_invalid_parameter
   ↔ initialized (qnnp_params unready_machine) = true ∧ 0 = 0) ∧
  heap r.2 = heap unready_machine ∧
  alloc_oracle r.2 = alloc_oracle unready_machine ∧
  qnnp_params r.2 = qnnp_params unready_machine ∧
  ∃ d, log r.2 = log unready_machine ++ [d].
Proof.
  intros r.
  apply (setup_failure_touches_nothing NULL 0 100 3 200 5 0 unready_machine r.1 r.2);
    [reflexivity | vm_compute; discriminate].
Defined.

Lemma same_persistent_refl (op : qnnp_operator) : same_persistent op op.
Proof. unfold same_persistent. repeat split. Qed.

Lemma same_persistent_trans (a b c : qnnp_operator) :
  same_persistent a b → same_persistent b c → same_persistent a c.
Proof. unfold same_persistent. intuition congruence. Qed.

Lemma set_setup_fields_persistent (rows : Z) (src : addr) (src_stride : Z)
    (dst : addr) (dst_stride : Z) (op : qnnp_operator) :
  same_persistent op (set_setup_fields rows src src_stride dst dst_stride op).
Proof. unfold same_persistent. repeat split. Qed.

Lemma set_setup_fields_forgets (rows : Z) (src : addr) (src_stride : Z)
    (dst : addr) (dst_stride : Z) (a b : qnnp_operator) :
  same_persistent a b →
  set_setup_fields rows src src_stride dst dst_stride b
  = set_setup_fields rows src src_stride dst dst_stride a.
Proof.
  intros (H1 & H2 & H3 & H4 & H5 & H6 & H7 & H8 & H9).
  unfold set_setup_fields. congruence.
Qed.

(** One call of Setup on a live operator, whatever it returns. *)
Lemma run_setup_step (p : addr) (c : setup_call) (m : machine) (op : qnnp_operator) :
  heap m !! p = Some (Struct op) →
  ∃ op',
    heap (run_setup p c m).2 !! p = Some (Struct op') ∧
    same_persistent op op' ∧
    (∀ q, q ≠ p → heap (run_setup p c m).2 !! q = heap m !! q) ∧
    alloc_oracle (run_setup p c m).2 = alloc_oracle m ∧
    qnnp_params (run_setup p c m).2 = qnnp_params m.
Proof.
  intros Hop. unfold run_setup, qnnp_setup_fully_connected_nc_q8.
  destruct (initialized (qnnp_params m)); cbn [negb].
  - destruct (decide (call_batch_size c = 0)).
    + exists op. cbn. split; [exact Hop |].
      split; [apply same_persistent_refl |]. repeat split.
    + rewrite (modify_operator_live _ _ _ _ Hop). cbn [snd heap with_heap].
      eexists. split; [apply lookup_insert_eq |].
      split; [apply set_setup_fields_persistent |].
      split; [intros q Hq; apply lookup_insert_ne; congruence |].
      split; reflexivity.
  - exists op. cbn. split; [exact Hop |].
    split; [apply same_persistent_refl |]. repeat split.
Qed.

(** A sequence of Setup calls keeps the operator live, with the fields
    Setup does not assign, and keeps the global parameters. *)
Lemma run_setups_invariant
    (p : addr) (calls : list setup_call) (m : machine) (op : qnnp_operator) :
  heap m !! p = Some (Struct op) →
  ∃ op',
    heap (run_setups p calls m) !! p = Some (Struct op') ∧
    same_persistent op op' ∧
    qnnp_params (run_setups p calls m) = qnnp_params m.
Proof.
  unfold run_setups. revert m op.
  induction calls as [| c calls IH]; intros m op Hop; cbn [foldl].
  - exists op. split; [exact Hop |]. split; [apply same_persistent_refl | reflexivity].
  - destruct (run_setup_step p c m op Hop) as (op1 & Hop1 & Hsame1 & _ & _ & Hparams1).
    destruct (IH _ _ Hop1) as (op' & Hop' & Hsame & Hparams).
    exists op'. split; [exact Hop' |].
    split; [eapply same_persistent_trans; eassumption | congruence].
Qed.

(** X16: however often Setup is called on a live operator, with
    whatever arguments and whatever each call returns, the operator stays
    live, the fields Setup does not assign (packed-kernel pointer, group
    and channel counts, zero points, requantization parameters, format,
    flags) keep their values, every other block of the heap, the packed
    buffer among them, is unchanged, and nothing is allocated. *)
Theorem setups_keep_persistent_state
    (p : addr) (calls : list setup_call) (m : machine) (op : qnnp_operator) :
  heap m !! p = Some (Struct op) →
  ∃ op',
    heap (run_setups p calls m) !! p = Some (Struct op') ∧
    same_persistent op op' ∧
    (∀ q, q ≠ p → heap (run_setups p calls m) !! q = heap m !! q) ∧
    alloc_oracle (run_setups p calls m) = alloc_oracle m ∧
    qnnp_params (run_setups p calls m) = qnnp_params m.
Proof.
  unfold run_setups. revert m op.
  induction calls as [| c calls IH]; intros m op Hop; cbn [foldl].
  - exists op. split; [exact Hop |]. split; [apply same_persistent_refl |].
    repeat split.
  - destruct (run_setup_step p c m op Hop)
      as (op1 & Hop1 & Hsame1 & Hother1 & Horacle1 & Hparams1).
    destruct (IH _ _ Hop1) as (op' & Hop' & Hsame & Hother & Horacle & Hparams).
    exists op'. split; [exact Hop' |].
    split; [eapply same_persistent_trans; eassumption |].
    split; [intros q Hq; rewrite (Hother q Hq); apply Hother1, Hq |].
    split; congruence.
Qed.

Lemma setups_keep_persistent_state_witness :
  let calls := [SetupCall 7 100 3 200 5 0; SetupCall 0 300 1 400 1 0;
                SetupCall 2 500 8 600 8 0] in
  ∃ op',
    heap (run_setups 1 calls bound_machine) !! 1 = Some (Struct op') ∧
    same_persistent sample_operator op' ∧
    (∀ q, q ≠ 1 → heap (run_setups 1 calls bound_machine) !! q
                  = heap bound_machine !! q) ∧
    alloc_oracle (run_setups 1 calls bound_machine) = alloc_oracle bound_machine ∧
    qnnp_params (run_setups 1 calls bound_machine) = qnnp_params bound_machine.
Proof.
  intros calls.
  apply (setups_keep_persistent_state 1 calls bound_machine sample_operator).
  reflexivity.
Defined.

(** X17: after any sequence of Setup calls that ends with a successful
    one, the operator is what that last call alone would have made of the
    original operator: nothing of the earlier calls is left. *)
Theorem last_setup_wins
    (p : addr) (calls : list setup_call) (c : setup_call)
    (m : machine) (op : qnnp_operator) :
  initialized (qnnp_params m) = true →
  call_batch_size c ≠ 0 →
  heap m !! p = Some (Struct op) →
  heap (run_setups p (calls ++ [c]) m) !! p
  = Some (Struct (set_setup_fields (call_batch_size c) (call_input c)
                    (call_input_stride c) (call_output c)
                    (call_output_stride c) op)).
Proof.
  intros Hinit Hrows Hop.
  unfold run_setups. rewrite foldl_app. cbn [foldl].
  destruct (run_setups_invariant p calls m op Hop)
    as (op' & Hop' & Hsame & Hparams).
  fold (run_setups p calls m).
  unfold run_setup.
  rewrite (setup_succeeds p op' (call_batch_size c) _ _ _ _ _ _
             ltac:(rewrite Hparams; exact Hinit) Hrows Hop').
  cbn [snd heap with_heap]. rewrite lookup_insert_eq.
  rewrite (set_setup_fields_forgets _ _ _ _ _ op op' Hsame). reflexivity.
Qed.

Lemma last_setup_wins_witness :
  heap (run_setups 1 ([SetupCall 7 100 3 200 5 0; SetupCall 0 300 1 400 1 0]
                      ++ [SetupCall 2 500 8 600 8 0]) bound_machine) !! 1
  = Some (Struct (set_setup_fields 2 500 8 600 8 sample_operator)).
Proof.
  apply (last_setup_wins 1 [SetupCall 7 100 3 200 5 0; SetupCall 0 300 1 400 1 0]
           (SetupCall 2 500 8 600 8 0) bound_machine sample_operator);
    [reflexivity | cbn; lia | reflexivity].
Defined.

(** ** Create, then Setup *)

(** X18: Setup with a non-zero batch size on the handle a successful
    Create returned succeeds; afterwards the operator has the fields
    Create gave it (group count 1, channel counts, zero points, format,
    flags, packed-kernel pointer) together with the batch size, buffers
    and strides of the call, and the packed buffer is the one Create
    filled. *)
Theorem setup_after_create
    (input_channels output_channels : Z)
    (izp : byte) (input_scale : float) (kzp : byte) (kernel_scale : float)
    (kernel : list byte) (bias : list Z)
    (ozp : byte) (output_scale : float) (output_min output_max : byte)
    (fully_connected_out : addr) (m : machine) (p : addr) (m1 : machine)
    (rows : Z) (src : addr) (src_stride : Z) (dst : addr) (dst_stride : Z)
    (threadpool : addr) :
  qnnp_create_fully_connected_nc_q8 input_channels output_channels
    izp input_scale kzp kernel_scale kernel bias ozp output_scale
    output_min output_max fully_connected_out m
  = (qnnp_status_success, p, m1) →
  rows ≠ 0 →
  ∃ m2 op buf,
    qnnp_setup_fully_connected_nc_q8 p rows src src_stride dst dst_stride
      threadpool m1 = (qnnp_status_success, m2) ∧
    heap m2 !! p = Some (Struct op) ∧
    (batch_size op = 1 ∧ input_height op = rows ∧ input_width op = 1 ∧
     input op = src ∧ input_pixel_stride op = src_stride ∧
     output_height op = rows ∧ output_width op = 1 ∧
     output op = dst ∧ output_pixel_stride op = dst_stride) ∧
    (groups op = 1 ∧
     group_input_channels op = input_channels ∧
     group_output_channels op = output_channels ∧
     input_zero_point op = izp ∧ kernel_zero_point op = kzp ∧
     format op = qnnp_format_quint8 ∧ flags op = QNNP_CONVOLUTION_FLAG_GEMM) ∧
    heap m1 !! packed_kernel op = Some (Bytes buf) ∧
    heap m2 !! packed_kernel op = Some (Bytes buf).
Proof.
  intros Hcreate Hrows.
  destruct (create_footprint _ _ _ _ _ _ _ _ _ _ _ _ _ _ _ _ Hcreate)
    as (q & _ & _ & Hpq & _ & _ & Hheap).
  pose proof (create_success_inv _ _ _ _ _ _ _ _ _ _ _ _ _ _ _ _ Hcreate) as Hv.
  destruct (first_violation_none_inv _ _ _ _ Hv) as (Hinit & _).
  pose proof (create_params input_channels output_channels izp input_scale kzp
                kernel_scale kernel bias ozp output_scale output_min output_max
                fully_connected_out m) as Hparams.
  rewrite Hcreate in Hparams. cbn [snd] in Hparams.
  assert (Hop : heap m1 !! p
                = Some (Struct (created_operator q input_channels output_channels
                                  izp kzp
                                  (fused_scale input_scale kernel_scale output_scale)
                                  ozp output_min output_max))).
  { rewrite Hheap. apply lookup_insert_eq. }
  assert (Hbuf : heap m1 !! q
                 = Some (Bytes (packed_contents (tile_width m) (tile_depth m)
                                  output_channels input_channels kzp kernel bias))).
  { rewrite Hheap, lookup_insert_ne by exact Hpq. apply lookup_insert_eq. }
  eexists _, _, _.
  split.
  { apply (setup_succeeds p
             (created_operator q input_channels output_channels izp kzp
                (fused_scale input_scale kernel_scale output_scale)
                ozp output_min output_max)
             rows src src_stride dst dst_stride threadpool m1);
      [rewrite Hparams; exact Hinit | exact Hrows | exact Hop]. }
  cbn [heap with_heap].
  split; [apply lookup_insert_eq |].
  split; [repeat split |]. split; [repeat split |].
  cbn [packed_kernel set_setup_fields created_operator set_created_fields
         set_packed_kernel].
  split; [exact Hbuf |].
  rewrite lookup_insert_ne by exact Hpq. exact Hbuf.
Qed.

Lemma setup_after_create_witness :
  let m := ready_machine 4 8 [true; true] in
  let r := qnnp_create_fully_connected_nc_q8 3 5 x07 f_half x80 f_half
             sample_kernel sample_bias x00 f_one x00 xff NULL m in
  ∃ m2 op buf,
    qnnp_setup_fully_connected_nc_q8 r.1.2 7 100 3 200 5 0 r.2
    = (qnnp_status_success, m2) ∧
    heap m2 !! r.1.2 = Some (Struct op) ∧
    (batch_size op = 1 ∧ input_height op = 7 ∧ input_width op = 1 ∧
     input op = 100 ∧ input_pixel_stride op = 3 ∧
     output_height op = 7 ∧ output_width op = 1 ∧
     output op = 200 ∧ output_pixel_stride op = 5) ∧
    (groups op = 1 ∧
     group_input_channels op = 3 ∧
     group_output_channels op = 5 ∧
     input_zero_point op = x07 ∧ kernel_zero_point op = x80 ∧
     format op = qnnp_format_quint8 ∧ flags op = QNNP_CONVOLUTION_FLAG_GEMM) ∧
    heap r.2 !! packed_kernel op = Some (Bytes buf) ∧
    heap m2 !! packed_kernel op = Some (Bytes buf).
Proof.
  intros m r.
  apply (setup_after_create 3 5 x07 f_half x80 f_half sample_kernel sample_bias
           x00 f_one x00 xff NULL m r.1.2 r.2 7 100 3 200 5 0);
    [vm_compute; reflexivity | lia].
Defined.

(** ** The global context *)

(** X19: Create only reads the global parameters: whatever it returns,
    the initialization flag and the tile sizes are as they were. *)
Theorem create_keeps_global_parameters
    (input_channels output_channels : Z)
    (izp : byte) (input_scale : float) (kzp : byte) (kernel_scale : float)
    (kernel : list byte) (bias : list Z)
    (ozp : byte) (output_scale : float) (output_min output_max : byte)
    (fully_connected_out : addr) (m : machine) :
  qnnp_params
    (qnnp_create_fully_connected_nc_q8 input_channels output_channels
       izp input_scale kzp kernel_scale kernel bias ozp output_scale
       output_min output_max fully_connected_out m).2
  = qnnp_params m.
Proof. apply create_params. Qed.
